(** * Scrape-and-cache service: extraction pipeline, cache manager, image relay

    A shallow embedding of the Express/Puppeteer server
    ([scrapeProducts], [GET /api/products], [GET /api/products/refresh],
    [GET /api/image-proxy]) together with the properties stated about it. *)

From Stdlib Require Import ZArith NArith Ascii String DecimalString.
From stdpp Require Import base decidable option list gmap.

Local Open Scope N_scope.

(** ** JavaScript strings

    A JavaScript string is a sequence of UTF-16 code units; a code unit is
    modelled by its number. *)

Abbreviation jsstring := (list N).

(** The code units of an ASCII literal of the source. *)
Definition js (s : string) : jsstring :=
  N_of_ascii <$> list_ascii_of_string s.

(** The class [\s] of a JavaScript regular expression, which is also the set
    of code units that [String.prototype.trim] strips: WhiteSpace and
    LineTerminator. *)
Definition is_space (c : N) : bool :=
  (c =? 9) || (c =? 10) || (c =? 11) || (c =? 12) || (c =? 13) || (c =? 32)
  || (c =? 160) || (c =? 5760) || ((8192 <=? c) && (c <=? 8202))
  || (c =? 8232) || (c =? 8233) || (c =? 8239) || (c =? 8287)
  || (c =? 12288) || (c =? 65279).

(** Skips a maximal run of white space: what a greedy [\s*] consumes. *)
Fixpoint skip_ws (s : jsstring) : jsstring :=
  match s with
  | c :: t => if is_space c then skip_ws t else s
  | [] => []
  end.

(** [s.replace(/\s+/g, " ")]: [in_run] tells whether the previous code unit
    belonged to a run of white space that was already replaced. *)
Fixpoint collapse_from (in_run : bool) (s : jsstring) : jsstring :=
  match s with
  | [] => []
  | c :: t =>
      if is_space c
      then (if in_run then collapse_from true t else 32 :: collapse_from true t)
      else c :: collapse_from false t
  end.

Definition collapse_ws (s : jsstring) : jsstring := collapse_from false s.

(** [s.trim()] *)
Definition trim (s : jsstring) : jsstring :=
  reverse (skip_ws (reverse (skip_ws s))).

(** [needle] occurs at the start of [s]: [s.startsWith(needle)]. *)
Fixpoint startsWith (needle s : jsstring) : bool :=
  match needle, s with
  | [], _ => true
  | a :: n', b :: s' => (a =? b) && startsWith n' s'
  | _ :: _, [] => false
  end.

(** [s.includes(needle)] *)
Fixpoint includes (needle s : jsstring) : bool :=
  startsWith needle s ||
  match s with
  | [] => false
  | _ :: t => includes needle t
  end.

(** Does the regular expression [/\s+D\s+/] match at the start of [s]?  The
    greedy [\s+] takes the whole run of white space; since [D] is not white
    space, no shorter run can be followed by [D]. *)
Definition sep_at (s : jsstring) : bool :=
  match s with
  | c :: t =>
      is_space c &&
      match skip_ws t with
      | d :: u :: _ => (d =? 68) && is_space u
      | _ => false
      end
  | [] => false
  end.

(** [s.split(/\s+D\s+/)[0]]: the text before the leftmost match, the whole
    text when there is none (the empty string splits into [[""]], as the
    pattern does not match the empty string). *)
Fixpoint split_first (s : jsstring) : jsstring :=
  match s with
  | [] => []
  | c :: t => if sep_at s then [] else c :: split_first t
  end.

(** [s.replace(/^D\s*/, "AED ")] *)
Definition replace_marker (s : jsstring) : jsstring :=
  match s with
  | 68 :: t => js "AED " ++ skip_ws t
  | _ => s
  end.

(** ** JavaScript values that are a string or [undefined]/[null] *)

(** Truthiness of a string: every string but the empty one. *)
Definition truthy_str (s : jsstring) : bool :=
  match s with [] => false | _ => true end.

Definition truthy (v : option jsstring) : bool :=
  match v with Some s => truthy_str s | None => false end.

(** [a || b] on such values. *)
Definition or_else (a b : option jsstring) : option jsstring :=
  if truthy a then a else b.

(** [a || b] where [b] is a string: the result is a string. *)
Definition or_str (a : option jsstring) (b : jsstring) : jsstring :=
  match a with
  | Some s => if truthy_str s then s else b
  | None => b
  end.

(** Line 107 of the server: the currency normalisation
    [price.split(/\s+D\s+/)[0]?.replace(/^D\s*/, "AED ") || price]. *)
Definition normalizeCurrency (price : jsstring) : jsstring :=
  or_str (Some (replace_marker (split_first price))) price.

(** Line 106 on the text of the price element:
    [innerText.replace(/\s+/g, " ").trim()]. *)
Definition cleanPriceText (raw : jsstring) : jsstring :=
  trim (collapse_ws raw).

Definition priceOfText (raw : jsstring) : jsstring :=
  normalizeCurrency (cleanPriceText raw).

(** ** The rendered page, as the extraction script observes it

    The script run by [page.evaluate] reads the DOM only through the queries
    below; an element is modelled by what those queries return on it. *)

(** An element whose text is read: [el.innerText] ([undefined] on an element
    that is not an HTML element). *)
Record Element := { innerText : option jsstring }.

(** A link element: its [href] property (the empty string without an [href]
    attribute) and [getAttribute("href")]. *)
Record Anchor := { href : jsstring; hrefAttr : option jsstring }.

(** An image element: its [src] property and [getAttribute("data-src")]. *)
Record Img := { src : jsstring; dataSrc : option jsstring }.

(** The lookups made inside the container of a card, each the result of one
    [container.querySelector(...)]. *)
Record Container := {
  q_h2 : option Element;            (* "h2" *)
  q_h3 : option Element;            (* "h3" *)
  q_h4 : option Element;            (* "h4" *)
  q_title : option Element;         (* "[class*='title']" *)
  q_name : option Element;          (* "[class*='name']" *)
  q_price_testid : option Element;  (* "[data-testid='price']" *)
  q_price : option Element;         (* "[class*='price']" *)
  q_Price : option Element;         (* "[class*='Price']" *)
  q_img : option Img                (* "img" *)
}.

Record Card := {
  as_anchor : option Anchor;     (* the card itself when [card.matches("a")] *)
  inner_link : option Anchor;    (* [card.querySelector('a[href*="/product/"]')] *)
  closest_a : option Container;  (* [card.closest("a")], seen through its lookups *)
  within : Container             (* the lookups made on the card itself *)
}.

(** [document.querySelectorAll(sel)] for the four selectors, in the order of
    the [selectors] array. *)
Record Document := {
  sel_testid : list Card;        (* '[data-testid="product-card"]' *)
  sel_product_card : list Card;  (* '[class*="product-card"]' *)
  sel_ProductCard : list Card;   (* '[class*="ProductCard"]' *)
  sel_product_link : list Card   (* 'a[href*="/product/"]' *)
}.

Record Product := {
  id : nat;
  title : jsstring;
  price : jsstring;
  image : jsstring;
  url : jsstring
}.

(** ** The extraction script (lines 65-126) *)

Definition selectors (d : Document) : list (list Card) :=
  [sel_testid d; sel_product_card d; sel_ProductCard d; sel_product_link d].

(** The first selector with at least one element wins. *)
Fixpoint first_nonempty (candidates : list (list Card)) : list Card :=
  match candidates with
  | [] => []
  | els :: rest => if (0 <? length els)%nat then els else first_nonempty rest
  end.

Definition discover (d : Document) : list Card := first_nonempty (selectors d).

(** [card.matches("a") ? card : card.querySelector('a[href*="/product/"]')] *)
Definition linkEl (c : Card) : option Anchor :=
  match as_anchor c with
  | Some a => Some a
  | None => inner_link c
  end.

(** [linkEl.href || linkEl.getAttribute("href") || ""] *)
Definition linkUrl (a : Anchor) : jsstring :=
  or_str (or_else (Some (href a)) (hrefAttr a)) [].

(** [card.matches("a") ? card : card.closest("a") || card] *)
Definition container (c : Card) : Container :=
  match as_anchor c with
  | Some _ => within c
  | None => match closest_a c with Some k => k | None => within c end
  end.

(** [el?.innerText?.trim()] *)
Definition trimmedText (el : option Element) : option jsstring :=
  trim <$> (el ≫= innerText).

Definition titleOf (k : Container) : option jsstring :=
  or_else (or_else (or_else (or_else
    (trimmedText (q_h2 k))
    (trimmedText (q_h3 k)))
    (trimmedText (q_h4 k)))
    (trimmedText (q_title k)))
    (trimmedText (q_name k)).

(** [a || b] on elements: an element is truthy, [null] is not. *)
Definition or_el (a b : option Element) : option Element :=
  match a with Some _ => a | None => b end.

Definition priceEl (k : Container) : option Element :=
  or_el (or_el (q_price_testid k) (q_price k)) (q_Price k).

(** Line 106. *)
Definition rawPriceOf (k : Container) : jsstring :=
  or_str (cleanPriceText <$> (priceEl k ≫= innerText)) [].

(** Lines 106-107. *)
Definition priceOf (k : Container) : jsstring :=
  normalizeCurrency (rawPriceOf k).

(** Lines 109-112. *)
Definition imageOf (k : Container) : jsstring :=
  let image := or_str (or_else (src <$> q_img k) (q_img k ≫= dataSrc)) [] in
  if startsWith (js "//") image then js "https:" ++ image else image.

(** Is a record pushed for a card that got past the link checks? *)
Definition emits (c : Card) : bool :=
  truthy (titleOf (container c)) || truthy_str (priceOf (container c)).

(** The record pushed for [c] when [n] records were pushed before it. *)
Definition recordOf (n : nat) (u : jsstring) (c : Card) : Product :=
  let k := container c in
  {| id := n + 1;
     title := or_str (titleOf k) (js "N/A");
     price := or_str (Some (priceOf k)) (js "N/A");
     image := or_str (Some (imageOf k)) [];
     url := u |}.

(** One iteration of [for (const card of cards)], on the pair of [results]
    and [seen]. *)
Definition visit (c : Card) (results : list Product) (seen : gset jsstring)
  : list Product * gset jsstring :=
  match linkEl c with
  | None => (results, seen)
  | Some a =>
      let u := linkUrl a in
      if negb (includes (js "/product/") u) || bool_decide (u ∈ seen)
      then (results, seen)
      else
        let seen' := {[u]} ∪ seen in
        if emits c
        then (results ++ [recordOf (length results) u c], seen')
        else (results, seen')
  end.

Fixpoint extract_loop (cards : list Card) (results : list Product)
    (seen : gset jsstring) : list Product :=
  match cards with
  | [] => results
  | c :: rest =>
      let '(results', seen') := visit c results seen in
      extract_loop rest results' seen'
  end.

Definition extract (d : Document) : list Product :=
  extract_loop (discover d) [] ∅.

(** Sample cards. *)
Definition noLookups : Container :=
  {| q_h2 := None; q_h3 := None; q_h4 := None; q_title := None; q_name := None;
     q_price_testid := None; q_price := None; q_Price := None; q_img := None |}.

Definition textEl (s : string) : option Element :=
  Some {| innerText := Some (js s) |}.

Definition linkCard (u : string) (k : Container) : Card :=
  {| as_anchor := Some {| href := js u; hrefAttr := Some (js u) |};
     inner_link := None; closest_a := None; within := k |}.

Definition linksOnly (cards : list Card) : Document :=
  {| sel_testid := []; sel_product_card := []; sel_ProductCard := [];
     sel_product_link := cards |}.

(** ** The scrape orchestrator (lines 24-135)

    Everything [scrapeProducts] does before the extraction script (launching
    the browser, navigation, the readiness wait, scrolling) either throws or
    hands a rendered page to the script; the [catch] block rethrows the same
    error, and [finally] closes the browser on both paths. *)

Inductive PageRun :=
  | Threw (message : jsstring)   (* an exception with this [err.message] *)
  | Loaded (d : Document).       (* the page the extraction script runs on *)

(** What the promise returned by [scrapeProducts()] settles to. *)
Definition scrapeProducts (run : PageRun) : jsstring + list Product :=
  match run with
  | Threw message => inl message
  | Loaded d => inr (extract d)
  end.

(** ** The cache and the two product endpoints (lines 19-22 and 137-189) *)

Local Open Scope Z_scope.

(** [Date.now()] is an integral number of milliseconds, far below 2^53, so
    the subtraction and the comparison of line 143 are exact. *)
Record Cache := {
  cachedProducts : list Product;
  lastScrapeTime : option Z       (* [null] until the first assignment *)
}.

Definition CACHE_DURATION : Z := 5 * 60 * 1000.

(** The condition of line 143:
    [cachedProducts.length > 0 && lastScrapeTime && (now - lastScrapeTime < CACHE_DURATION)].
    A number is truthy unless it is zero. *)
Definition cacheValid (c : Cache) (now : Z) : bool :=
  (0 <? length (cachedProducts c))%nat &&
  match lastScrapeTime c with
  | Some t => negb (t =? 0) && (now - t <? CACHE_DURATION)
  | None => false
  end.

(** The JSON bodies sent by the product endpoints. *)
Inductive Body :=
  | Success (count : nat) (cached : option bool) (products : list Product)
      (* [{ success: true, count, cached, products }]; [cached = None]: no such field *)
  | Failure (error : jsstring).
      (* [{ success: false, error }] *)

Record Response := { status : Z; body : Body }.

(** A handler suspended at [await scrapeProducts()], with the local
    variable it will use when it resumes. *)
Inductive Suspended :=
  | AwaitProducts (now : Z)   (* [GET /api/products], [now] read on line 140 *)
  | AwaitRefresh.             (* [GET /api/products/refresh] *)

(** The process: the two module-level variables and the handlers whose
    scrape has not settled yet, each under the number of its request. *)
Record Server := {
  cache : Cache;
  inflight : list (nat * Suspended)
}.

Definition initial : Server :=
  {| cache := {| cachedProducts := []; lastScrapeTime := None |}; inflight := [] |}.

(** The event loop runs one of these at a time: a request arrives and its
    handler runs up to its first [await]; or the scrape of a suspended
    handler settles and the handler runs to its end. *)
Inductive Event :=
  | GetProducts (r : nat) (now : Z)   (* [Date.now()] on line 140 gives [now] *)
  | GetRefresh (r : nat)
  | ScrapeSettled (r : nat) (run : PageRun) (clock : Z).
      (* [clock] is what [Date.now()] gives when the handler resumes *)

Inductive Action :=
  | LaunchScrape (r : nat)             (* a call of [scrapeProducts()] *)
  | Reply (r : nat) (resp : Response).

Definition ok (b : Body) : Response := {| status := 200; body := b |}.
Definition serverError (message : jsstring) : Response :=
  {| status := 500; body := Failure message |}.

(** The first suspended handler of request [r]. *)
Fixpoint suspendedOf (r : nat) (l : list (nat * Suspended)) : option Suspended :=
  match l with
  | [] => None
  | (r', s) :: rest => if decide (r' = r) then Some s else suspendedOf r rest
  end.

Fixpoint resume (r : nat) (l : list (nat * Suspended)) : list (nat * Suspended) :=
  match l with
  | [] => []
  | (r', s) :: rest => if decide (r' = r) then rest else (r', s) :: resume r rest
  end.

(** The rest of a handler after its [await]. *)
Definition settle (s : Suspended) (run : PageRun) (clock : Z)
    (c : Cache) : Cache * Response :=
  match scrapeProducts run with
  | inl message => (c, serverError message)
  | inr products =>
      match s with
      | AwaitProducts now =>
          (* lines 154-162 *)
          ({| cachedProducts := products; lastScrapeTime := Some now |},
           ok (Success (length products) (Some false) products))
      | AwaitRefresh =>
          (* lines 175-182 *)
          ({| cachedProducts := products; lastScrapeTime := Some clock |},
           ok (Success (length products) None products))
      end
  end.

(** A handler reaches its [await]: the cache is untouched. *)
Definition suspend (st : Server) (r : nat) (s : Suspended) : Server :=
  {| cache := cache st; inflight := inflight st ++ [(r, s)] |}.

Definition step (st : Server) (e : Event) : Server * list Action :=
  match e with
  | GetProducts r now =>
      if cacheValid (cache st) now
      then (st, [Reply r (ok (Success (length (cachedProducts (cache st)))
                                     (Some true) (cachedProducts (cache st))))])
      else (suspend st r (AwaitProducts now), [LaunchScrape r])
  | GetRefresh r => (suspend st r AwaitRefresh, [LaunchScrape r])
  | ScrapeSettled r run clock =>
      match suspendedOf r (inflight st) with
      | None => (st, [])
      | Some s =>
          let '(c, resp) := settle s run clock (cache st) in
          ({| cache := c; inflight := resume r (inflight st) |}, [Reply r resp])
      end
  end.

(** A run of the event loop, with everything it did. *)
Fixpoint run_events (st : Server) (es : list Event) : Server * list Action :=
  match es with
  | [] => (st, [])
  | e :: rest =>
      let '(st1, out1) := step st e in
      let '(st2, out2) := run_events st1 rest in
      (st2, out1 ++ out2)
  end.

(** ** The image relay (lines 191-220) *)

(** [req.query.url] as the query parser leaves it. *)
Inductive QueryValue :=
  | QMissing                       (* no [url] parameter: [undefined] *)
  | QString (s : jsstring)          (* [?url=s] *)
  | QArray (items : list jsstring)  (* [?url=a&url=b], never empty *)
  | QObject.                        (* [?url[k]=v] *)

(** Truthiness of [imageUrl]: arrays and objects are truthy. *)
Definition queryTruthy (q : QueryValue) : bool :=
  match q with
  | QMissing => false
  | QString s => truthy_str s
  | QArray _ | QObject => true
  end.

(** What [fetch(imageUrl, ...)] settles to. *)
Inductive Fetched :=
  | FetchThrew                                        (* rejected promise *)
  | Upstream (upstatus : Z) (contentType : option jsstring)
      (bytes : option (list N)).
      (* the status, [headers.get("content-type")] and what
         [response.arrayBuffer()] gives, [None] when it rejects *)

(** [response.ok] *)
Definition responseOk (upstatus : Z) : bool :=
  (200 <=? upstatus) && (upstatus <=? 299).

Inductive RelayBody :=
  | ErrorJson (error : jsstring)
  | ImageBytes (contentType cacheControl : jsstring) (bytes : list N).

Record RelayResponse := { rstatus : Z; rbody : RelayBody }.

Section Relay.

(** The network, as a function of the value handed to [fetch]. *)
Variable fetch : QueryValue -> Fetched.

(** The handler, with the list of [fetch] calls it made. *)
Definition imageProxy (imageUrl : QueryValue) : list QueryValue * RelayResponse :=
  if negb (queryTruthy imageUrl)
  then ([], {| rstatus := 400; rbody := ErrorJson (js "Missing url parameter") |})
  else
    ([imageUrl],
     match fetch imageUrl with
     | FetchThrew => {| rstatus := 500; rbody := ErrorJson (js "Image proxy error") |}
     | Upstream upstatus contentType bytes =>
         if negb (responseOk upstatus)
         then {| rstatus := upstatus; rbody := ErrorJson (js "Failed to fetch image") |}
         else
           match bytes with
           | None => {| rstatus := 500; rbody := ErrorJson (js "Image proxy error") |}
           | Some buffer =>
               {| rstatus := 200;
                  rbody := ImageBytes (or_str contentType (js "image/jpeg"))
                                      (js "public, max-age=86400") buffer |}
           end
     end).

End Relay.

(** ** The browser session of one scrape, stage by stage (lines 10-17, 24-135) *)

Section Chrome.

(** [existsSync] and [process.env.LOCALAPPDATA] ([None]: not set). *)
Variable existsSync : jsstring -> bool.
Variable LOCALAPPDATA : option jsstring.

(** [process.env.LOCALAPPDATA + "\\Google\\..."]: an [undefined] operand of
    [+] becomes the text ["undefined"]. *)
Definition localAppData : jsstring :=
  match LOCALAPPDATA with
  | Some v => v
  | None => js "undefined"
  end.

(** The array [paths] after [.filter(Boolean)]. *)
Definition chromePaths : list jsstring :=
  List.filter truthy_str
    [ js "C:\Program Files\Google\Chrome\Application\chrome.exe";
      js "C:\Program Files (x86)\Google\Chrome\Application\chrome.exe";
      localAppData ++ js "\Google\Chrome\Application\chrome.exe" ].

(** [paths.find((p) => existsSync(p))] *)
Definition getChromePath : option jsstring := List.find existsSync chromePaths.

End Chrome.

(** What the session does, in order. *)
Inductive BrowserAction :=
  | ALaunch (executablePath : option jsstring)
  | ANewPage
  | ASetUserAgent
  | AGoto
  | AWaitReady
  | AScroll
  | AExtract
  | ALogError (message : jsstring)   (* [console.error] of the [catch] block *)
  | AClose.                          (* [browser.close()] of the [finally] block *)

(** How each awaited call of the [try] block ends: [None], it returns;
    [Some message], it throws. *)
Record Session := {
  launch : option jsstring;
  newPage : option jsstring;
  setUserAgent : option jsstring;
  goto : option jsstring;
  waitCrash : option jsstring;      (* [waitForFunction] fails for another reason *)
  polls : list Document;            (* the page at each poll before the 30 s *)
  timeoutMessage : jsstring;        (* the message of the time-out error *)
  scroll : option jsstring;
  evaluated : jsstring + Document;  (* the page the extraction script runs on *)
  close : option jsstring
}.

(** The readiness predicate of lines 51-54. *)
Definition ready (d : Document) : bool :=
  (3 <=? length (sel_product_link d))%nat.

(** [waitForFunction(..., { timeout: 30000 })]: resolves at the first poll
    at which the predicate holds. *)
Definition waitReady (s : Session) : option jsstring :=
  match waitCrash s with
  | Some message => Some message
  | None => if existsb ready (polls s) then None else Some (timeoutMessage s)
  end.

(** A computation of the [try] block: what was done, and an exception or a
    value. *)
Definition Try (A : Type) : Type := list BrowserAction * (jsstring + A).

Definition attempt (a : BrowserAction) (outcome : option jsstring) : Try unit :=
  ([a], match outcome with Some message => inl message | None => inr tt end).

Definition andThen {A B} (t : Try A) (k : A -> Try B) : Try B :=
  match t.2 with
  | inl message => (t.1, inl message)
  | inr x => ((t.1 ++ (k x).1), (k x).2)
  end.

(** [chromePath || undefined] *)
Definition executablePathOf (chromePath : option jsstring) : option jsstring :=
  if truthy chromePath then chromePath else None.

(** Lines 27-128. *)
Definition tryBlock (chromePath : option jsstring) (s : Session)
    : Try (list Product) :=
  andThen (attempt (ALaunch (executablePathOf chromePath)) (launch s)) (fun _ =>
  andThen (attempt ANewPage (newPage s)) (fun _ =>
  andThen (attempt ASetUserAgent (setUserAgent s)) (fun _ =>
  andThen (attempt AGoto (goto s)) (fun _ =>
  andThen (attempt AWaitReady (waitReady s)) (fun _ =>
  andThen (attempt AScroll (scroll s)) (fun _ =>
  ([AExtract],
   match evaluated s with
   | inl message => inl message
   | inr d => inr (extract d)
   end))))))).

(** The whole of [scrapeProducts]: the [catch] block logs and rethrows; the
    [finally] block closes the browser if [browser] was assigned, and an
    exception of [browser.close()] replaces the outcome. *)
Definition scrapeSession (chromePath : option jsstring) (s : Session)
    : Try (list Product) :=
  let t := tryBlock chromePath s in
  let caught :=
    match t.2 with
    | inl message => (t.1 ++ [ALogError message], inl message)
    | inr products => (t.1, inr products)
    end in
  match launch s with
  | Some _ => caught
  | None =>
      (caught.1 ++ [AClose],
       match close s with
       | Some message => inl message
       | None => caught.2
       end)
  end.

(** The first stage that throws, if any. *)
Definition firstFailure (s : Session) : option jsstring :=
  match launch s with Some m => Some m | None =>
  match newPage s with Some m => Some m | None =>
  match setUserAgent s with Some m => Some m | None =>
  match goto s with Some m => Some m | None =>
  match waitReady s with Some m => Some m | None =>
  match scroll s with Some m => Some m | None =>
  match evaluated s with inl m => Some m | inr _ => None end
  end end end end end end.

(** The session as the cache manager sees it. *)
Definition summary (s : Session) : PageRun :=
  match firstFailure s with
  | Some message => Threw message
  | None =>
      match evaluated s with
      | inl message => Threw message
      | inr d => Loaded d
      end
  end.

(** The stages of a session that runs to its end. *)
Definition allStages (chromePath : option jsstring) : list BrowserAction :=
  [ALaunch (executablePathOf chromePath); ANewPage; ASetUserAgent; AGoto;
   AWaitReady; AScroll; AExtract].

(** A session in which everything works, on a page with three links. *)
Definition smoothSession (d : Document) : Session :=
  {| launch := None; newPage := None; setUserAgent := None; goto := None;
     waitCrash := None; polls := [linksOnly []; d];
     timeoutMessage := js "Waiting failed: 30000ms exceeded";
     scroll := None; evaluated := inr d; close := None |}.

(** ** The stand-alone scraper script (second file, lines 286-344)

    The same loop as in the server, with records that have no [id] and an
    image that is left as it is found. *)

Record ScriptRecord := {
  s_title : jsstring;
  s_price : jsstring;
  s_image : jsstring;
  s_url : jsstring
}.

Definition scriptRecordOf (u : jsstring) (c : Card) : ScriptRecord :=
  let k := container c in
  {| s_title := or_str (titleOf k) (js "N/A");
     s_price := or_str (Some (priceOf k)) (js "N/A");
     s_image :=
       or_str (Some (or_str (or_else (src <$> q_img k) (q_img k ≫= dataSrc)) [])) [];
     s_url := u |}.

Definition scriptVisit (c : Card) (results : list ScriptRecord)
    (seen : gset jsstring) : list ScriptRecord * gset jsstring :=
  match linkEl c with
  | None => (results, seen)
  | Some a =>
      let u := linkUrl a in
      if negb (includes (js "/product/") u) || bool_decide (u ∈ seen)
      then (results, seen)
      else
        let seen' := {[u]} ∪ seen in
        if truthy (titleOf (container c)) || truthy_str (priceOf (container c))
        then (results ++ [scriptRecordOf u c], seen')
        else (results, seen')
  end.

Fixpoint scriptLoop (cards : list Card) (results : list ScriptRecord)
    (seen : gset jsstring) : list ScriptRecord :=
  match cards with
  | [] => results
  | c :: rest =>
      let '(results', seen') := scriptVisit c results seen in
      scriptLoop rest results' seen'
  end.

Definition scriptExtract (d : Document) : list ScriptRecord :=
  scriptLoop (discover d) [] ∅.

(** ** The dashboard page (frontend/app/page.tsx, lines 32-71) *)

Local Open Scope N_scope.

(** A code unit that the class [[^\d.,AED\s]] does not match. *)
Definition keptByFormat (c : N) : bool :=
  ((48 <=? c) && (c <=? 57)) || (c =? 46) || (c =? 44)
  || (c =? 65) || (c =? 69) || (c =? 68) || is_space c.

(** [formatPrice] *)
Definition formatPrice (price : jsstring) : jsstring :=
  let cleaned := trim (List.filter keptByFormat price) in
  if includes (js "AED") cleaned then cleaned else js "AED " ++ cleaned.

Local Open Scope Z_scope.

(** The state of the page that [fetchProducts] writes. *)
Record Home := {
  h_products : list Product;
  h_loading : bool;
  h_refreshing : bool;
  h_error : option jsstring;    (* [null], or the message on the error screen *)
  h_lastUpdated : option Z;
  h_isCached : bool
}.

(** How [fetch] followed by [response.json()] ends: an exception, or the
    body that the server sent. *)
Inductive Fetch :=
  | FetchFailed
  | FetchJson (data : Body).

(** The endpoint called: [forceRefresh ? "/api/products/refresh" : "/api/products"]. *)
Definition endpointOf (forceRefresh : bool) : string :=
  if forceRefresh then "/api/products/refresh" else "/api/products".

(** [fetchProducts(forceRefresh)], from the state in which it is called to
    the state after its [finally] block; [clock] is the time of [new Date()]. *)
Definition fetchProducts (forceRefresh : bool) (outcome : Fetch) (clock : Z)
    (h : Home) : Home :=
  (* lines 34-39 *)
  let h1 :=
    {| h_products := h_products h;
       h_loading := if forceRefresh then h_loading h else true;
       h_refreshing := if forceRefresh then true else h_refreshing h;
       h_error := None;
       h_lastUpdated := h_lastUpdated h;
       h_isCached := h_isCached h |} in
  (* lines 42-53 *)
  let h2 :=
    match outcome with
    | FetchJson (Success _ cached products) =>
        {| h_products := products;
           h_loading := h_loading h1;
           h_refreshing := h_refreshing h1;
           h_error := h_error h1;
           h_lastUpdated := Some clock;
           h_isCached := match cached with Some b => b | None => false end |}
    | FetchJson (Failure error) =>
        {| h_products := h_products h1; h_loading := h_loading h1;
           h_refreshing := h_refreshing h1;
           h_error := Some (or_str (Some error) (js "Failed to fetch products"));
           h_lastUpdated := h_lastUpdated h1; h_isCached := h_isCached h1 |}
    | FetchFailed =>
        {| h_products := h_products h1; h_loading := h_loading h1;
           h_refreshing := h_refreshing h1;
           h_error := Some (js "Unable to connect to server. Make sure the backend is running on port 3001.");
           h_lastUpdated := h_lastUpdated h1; h_isCached := h_isCached h1 |}
    end in
  (* lines 55-56 *)
  {| h_products := h_products h2; h_loading := false; h_refreshing := false;
     h_error := h_error h2; h_lastUpdated := h_lastUpdated h2;
     h_isCached := h_isCached h2 |}.

(** The event the server receives for a call of [fetchProducts]. *)
Definition requestOf (forceRefresh : bool) (r : nat) (now : Z) : Event :=
  if forceRefresh then GetRefresh r else GetProducts r now.

(** ** The demo dashboard (frontend/app/demo/page.tsx) *)

(** The text of a template literal for a number that is a non-negative
    integer: its decimal digits. *)
Definition decimal (n : Z) : jsstring :=
  js (NilEmpty.string_of_uint (N.to_uint (Z.to_N n))).

(** [formatTimeAgo] (lines 273-280), for a date whose [getTime()] is [t] at
    the time [now].  The operands are integers below 2^53 and the divisors
    60000, 60 and 24, so that [Math.floor] of the floating-point quotient is
    the floor of the exact quotient. *)
Definition formatTimeAgo (now t : Z) : jsstring :=
  let mins := (now - t) / 60000 in
  if mins <? 1 then js "Just now"
  else if mins <? 60 then decimal mins ++ js "m ago"
  else
    let hours := mins / 60 in
    if hours <? 24 then decimal hours ++ js "h ago"
    else decimal (hours / 24) ++ js "d ago".

(** What the [fetchProducts] of the demo makes of a reply (lines 144 and
    189-195): [None] when it takes the products, the message given to
    [setError] otherwise. *)
Definition demoVerdict (outcome : Fetch) : option jsstring :=
  match outcome with
  | FetchJson (Success _ _ products) =>
      if (0 <? length products)%nat then None
      else Some (or_str None (js "No products returned from scraper."))
  | FetchJson (Failure error) =>
      Some (or_str (Some error) (js "No products returned from scraper."))
  | FetchFailed =>
      Some (js "Unable to connect to the scraper server. Make sure the backend is running on port 3001.")
  end.

(** ** Vocabulary of the properties *)

Local Open Scope N_scope.

(** A code unit of a numeric amount: a digit, a comma or a point. *)
Definition is_amount_char (c : N) : bool :=
  ((48 <=? c) && (c <=? 57)) || (c =? 44) || (c =? 46).

Definition all_space (s : jsstring) : bool := forallb is_space s.
Definition is_amount (s : jsstring) : bool :=
  truthy_str s && forallb is_amount_char s.

(** What may follow the amount for the normalisation to isolate it: nothing
    but white space, or the separator (white space, [D], white space) and
    then text that starts with a visible code unit. *)
Definition price_tail (tail : jsstring) : bool :=
  all_space tail ||
  match tail with
  | w :: _ =>
      is_space w &&
      match skip_ws tail with
      | m :: w3 :: t => (m =? 68) && is_space w3 && truthy_str (skip_ws t)
      | _ => false
      end
  | [] => false
  end.

Inductive price_tail_view : jsstring -> Prop :=
  | tail_blank ws : all_space ws = true -> price_tail_view ws
  | tail_separator ws2 ws3 c rest :
      all_space ws2 = true -> truthy_str ws2 = true ->
      all_space ws3 = true -> truthy_str ws3 = true ->
      is_space c = false ->
      price_tail_view (ws2 ++ 68 :: ws3 ++ c :: rest).

(** The address a card resolves to, when it has a link at all. *)
Definition cardUrl (c : Card) : option jsstring := linkUrl <$> linkEl c.

Definition resolvesTo (u : jsstring) (c : Card) : bool :=
  bool_decide (cardUrl c = Some u).

(** [url.includes("/product/")]: a product-detail address. *)
Definition isProductUrl (u : jsstring) : bool := includes (js "/product/") u.

(** The records of a result that carry the address [u]. *)
Definition carrying (u : jsstring) (results : list Product) : list Product :=
  filter (fun p => url p = u) results.

(** Every pushed record has its address in [seen]. *)
Definition covered (results : list Product) (seen : gset jsstring) : Prop :=
  forall p, p ∈ results -> url p ∈ seen.

(** The lookups of the title chain and of the price chain, in order. *)
Definition titleLookups (k : Container) : list (option Element) :=
  [q_h2 k; q_h3 k; q_h4 k; q_title k; q_name k].

Definition priceLookups (k : Container) : list (option Element) :=
  [q_price_testid k; q_price k; q_Price k].

(** [el?.innerText?.replace(/\s+/g, " ").trim()] *)
Definition cleanedText (el : option Element) : option jsstring :=
  cleanPriceText <$> (el ≫= innerText).

(** Some title lookup finds an element with visible text. *)
Definition titleMatch (k : Container) : bool :=
  existsb (fun el => truthy (trimmedText el)) (titleLookups k).

(** The first price element that exists has visible text. *)
Definition priceMatch (k : Container) : bool :=
  truthy (cleanedText (priceEl k)).

(** Some price lookup finds an element with visible text. *)
Definition anyPriceMatch (k : Container) : bool :=
  existsb (fun el => truthy (cleanedText el)) (priceLookups k).

(** A link around a picture only, and a link around a title only. *)
Definition pictureOf (u : string) : Card :=
  linkCard u
    {| q_h2 := None; q_h3 := None; q_h4 := None; q_title := None; q_name := None;
       q_price_testid := None; q_price := None; q_Price := None;
       q_img := Some {| src := js "https://cdn/x.jpg"; dataSrc := None |} |}.

Definition titled (u t : string) : Card :=
  linkCard u
    {| q_h2 := textEl t; q_h3 := None; q_h4 := None; q_title := None;
       q_name := None; q_price_testid := None; q_price := None; q_Price := None;
       q_img := None |}.

(** Two links to one product, the first around the picture. *)
Definition pictureLink : Card := pictureOf "https://x/product/1".
Definition titleLink : Card := titled "https://x/product/1" "Kettle".

(** A card whose first price element is empty while a later one holds the
    price, and which has no title. *)
Definition emptyFirstPrice : Card :=
  linkCard "https://x/product/9"
    {| q_h2 := None; q_h3 := None; q_h4 := None; q_title := None; q_name := None;
       q_price_testid := textEl ""; q_price := textEl "D 100"; q_Price := None;
       q_img := None |}.

Local Open Scope Z_scope.

(** The cache holds an entry captured less than the duration ago. *)
Definition entryYoung (c : Cache) (now : Z) : Prop :=
  exists t, lastScrapeTime c = Some t /\ now - t < 300000.

(** The same, for an entry with at least one record and a timestamp that is
    not zero. *)
Definition hitCondition (c : Cache) (now : Z) : Prop :=
  cachedProducts c <> [] /\
  exists t, lastScrapeTime c = Some t /\ t <> 0 /\ now - t < 300000.

(** A page with three product links around pictures: ready for extraction,
    and without any title or price. *)
Definition threePictures : Document :=
  linksOnly [pictureOf "https://x/product/1"; pictureOf "https://x/product/2";
             pictureOf "https://x/product/3"].

Definition kettlePage : Document := linksOnly [titled "https://x/product/1" "Kettle"].
Definition ironPage : Document := linksOnly [titled "https://x/product/2" "Iron"].

(** A network on which every fetch succeeds. *)
Definition alwaysImage (q : QueryValue) : Fetched :=
  Upstream 200 None (Some []).

(** A network on which every fetch is answered with 404. *)
Definition alwaysNotFound (q : QueryValue) : Fetched :=
  Upstream 404 None None.

(** ** Vocabulary of the further properties *)

Local Open Scope N_scope.

(** What every pushed record satisfies. *)
Definition wellFormed (p : Product) : Prop :=
  isProductUrl (url p) = true /\
  truthy_str (title p) = true /\
  truthy_str (price p) = true /\
  startsWith (js "//") (image p) = false.

(** The first value of a chain of [||] that is truthy. *)
Fixpoint firstTruthy (chain : list (option jsstring)) : option jsstring :=
  match chain with
  | [] => None
  | v :: rest => if truthy v then v else firstTruthy rest
  end.

(** [img?.src || img?.getAttribute("data-src") || ""], before line 112. *)
Definition imageSource (k : Container) : jsstring :=
  or_str (or_else (src <$> q_img k) (q_img k ≫= dataSrc)) [].

(** White space occurs only as single spaces (U+0020) that do not touch. *)
Fixpoint singleSpaced (s : jsstring) : bool :=
  match s with
  | [] => true
  | c :: t =>
      (negb (is_space c) || (c =? 32)) &&
      match t with
      | c' :: _ => negb (is_space c && is_space c')
      | [] => true
      end &&
      singleSpaced t
  end.

(** Some code unit [D] comes right after white space. *)
Fixpoint markerAfterSpace (s : jsstring) : bool :=
  match s with
  | c :: t =>
      match t with
      | c' :: _ => (is_space c && (c' =? 68)) || markerAfterSpace t
      | [] => false
      end
  | [] => false
  end.

(** The first and the last code unit, if any, are visible. *)
Definition visibleEnds (s : jsstring) : Prop :=
  (forall c, head s = Some c -> is_space c = false) /\
  (forall c, last s = Some c -> is_space c = false).

(** An element matched by a card selector that contains no link at all. *)
Definition wrapperCard : Card :=
  {| as_anchor := None; inner_link := None; closest_a := None; within := noLookups |}.

(** A page on which the first selector matches a wrapper only, while the
    product links carry titles. *)
Definition wrapperPage : Document :=
  {| sel_testid := [wrapperCard]; sel_product_card := []; sel_ProductCard := [];
     sel_product_link := [titled "https://x/product/1" "Kettle";
                          titled "https://x/product/2" "Iron";
                          titled "https://x/product/3" "Fan"] |}.

(** A card whose picture is lazy-loaded from a protocol-relative address. *)
Definition lazyPicture : Card :=
  linkCard "https://x/product/4"
    {| q_h2 := textEl "Mixer"; q_h3 := None; q_h4 := None; q_title := None;
       q_name := None; q_price_testid := None; q_price := None; q_Price := None;
       q_img := Some {| src := []; dataSrc := Some (js "//cdn.x/m.jpg") |} |}.

Local Open Scope Z_scope.

(** An event that is not the success of a scrape: an arrival, or a scrape
    that failed. *)
Definition harmless (e : Event) : bool :=
  match e with
  | ScrapeSettled _ (Loaded _) _ => false
  | _ => true
  end.

Definition isLaunch (a : Action) : bool :=
  match a with LaunchScrape _ => true | Reply _ _ => false end.

(** A reply sent by a handler that resumed after its scrape: any reply but
    the one served from the cache. *)
Definition isSettledReply (a : Action) : bool :=
  match a with
  | Reply _ {| body := Success _ (Some true) _ |} => false
  | Reply _ _ => true
  | LaunchScrape _ => false
  end.

Definition countIf (f : Action -> bool) (out : list Action) : nat :=
  length (List.filter f out).

(** The timestamp a handler writes when its scrape succeeds at [clock]. *)
Definition stampOf (s : Suspended) (clock : Z) : Z :=
  match s with AwaitProducts now => now | AwaitRefresh => clock end.

(** What a reply of the product endpoints always looks like. *)
Definition replyComplete (resp : Response) : Prop :=
  match body resp with
  | Success n cached products =>
      status resp = 200 /\ n = length products /\
      (exists d, products = extract d) /\
      NoDup (url <$> products) /\
      id <$> products = seq 1 n /\
      Forall wellFormed products
  | Failure _ => status resp = 500
  end.

(** * Properties *)

(** ** Evaluation on sample inputs *)

Example price_plain : priceOfText (js "D 1,299") = js "AED 1,299".
Proof. reflexivity. Qed.

Example price_two : priceOfText (js " D  1,299
   D 1,499  25% OFF ") = js "AED 1,299".
Proof. reflexivity. Qed.

Example price_suffix : priceOfText (js "1299 D") = js "1299 D".
Proof. reflexivity. Qed.

Example price_mid : priceOfText (js "1299 D 1499") = js "1299".
Proof. reflexivity. Qed.

Example extract_sample :
  extract (linksOnly
    [ linkCard "https://x/product/1"
        {| q_h2 := textEl " Kettle "; q_h3 := None; q_h4 := None; q_title := None;
           q_name := None; q_price_testid := None; q_price := textEl "D 99  D 120";
           q_Price := None; q_img := Some {| src := js "//cdn/x.jpg"; dataSrc := None |} |};
      linkCard "https://x/product/1" noLookups;
      linkCard "https://x/product/2"
        {| q_h2 := None; q_h3 := None; q_h4 := textEl "Iron"; q_title := None;
           q_name := None; q_price_testid := None; q_price := None;
           q_Price := None; q_img := None |} ])
  = [ {| id := 1; title := js "Kettle"; price := js "AED 99";
         image := js "https://cdn/x.jpg"; url := js "https://x/product/1" |};
      {| id := 2; title := js "Iron"; price := js "N/A";
         image := []; url := js "https://x/product/2" |} ].
Proof. vm_compute. reflexivity. Qed.


(** ** White space, trimming and the separator *)

Section Strings.

Local Open Scope N_scope.

Ltac unbool :=
  repeat rewrite ?orb_true_iff, ?andb_true_iff, ?orb_false_iff, ?andb_false_iff,
    ?N.eqb_eq, ?N.eqb_neq, ?N.leb_le, ?N.leb_gt in *.

Lemma amount_char_visible c : is_amount_char c = true -> is_space c = false.
Proof. unfold is_amount_char, is_space. intros H. unbool. lia. Qed.

Lemma amount_char_not_marker c : is_amount_char c = true -> c <> 68.
Proof. unfold is_amount_char. intros H. unbool. lia. Qed.

Lemma marker_visible : is_space 68 = false.
Proof. reflexivity. Qed.

Lemma skip_ws_blank ws s : all_space ws = true -> skip_ws (ws ++ s) = skip_ws s.
Proof.
  induction ws as [|c ws IH]; simpl; [done|].
  intros [Hc Hws]%andb_true_iff. rewrite Hc. auto.
Qed.

Lemma skip_ws_visible c s : is_space c = false -> skip_ws (c :: s) = c :: s.
Proof. simpl. by intros ->. Qed.

(** A visible code unit stops the skipping, and what comes after it stays. *)
Lemma skip_ws_upto_visible front c back :
  is_space c = false ->
  exists front', skip_ws (front ++ c :: back) = front' ++ c :: back.
Proof.
  intros Hc. induction front as [|x front IH]; simpl.
  - rewrite Hc. by exists [].
  - destruct (is_space x); [done|]. by exists (x :: front).
Qed.

Lemma collapse_blank b ws s :
  all_space ws = true -> truthy_str ws = true ->
  collapse_from b (ws ++ s) = (if b then [] else [32]) ++ collapse_from true s.
Proof.
  revert b. induction ws as [|c ws IH]; [done|].
  intros b [Hc Hws]%andb_true_iff _. simpl. rewrite Hc.
  destruct ws as [|c' ws'].
  - by destruct b.
  - rewrite (IH true Hws eq_refl). by destruct b.
Qed.

Lemma collapse_blank_only b ws :
  all_space ws = true ->
  collapse_from b ws = if b then [] else if truthy_str ws then [32] else [].
Proof.
  intros Hws. destruct ws as [|c ws]; [by destruct b|].
  rewrite <- (app_nil_r (c :: ws)), collapse_blank by done.
  simpl. by destruct b.
Qed.

Lemma collapse_visible b c s :
  is_space c = false -> collapse_from b (c :: s) = c :: collapse_from false s.
Proof. simpl. by intros ->. Qed.

Lemma collapse_amount b a s :
  forallb is_amount_char a = true -> truthy_str a = true ->
  collapse_from b (a ++ s) = a ++ collapse_from false s.
Proof.
  revert b. induction a as [|c a IH]; [done|].
  intros b [Hc Ha]%andb_true_iff _.
  cbn [app]. rewrite collapse_visible by by apply amount_char_visible.
  f_equal. destruct a as [|c' a']; [done|]. by apply IH.
Qed.

(** Trimming keeps everything up to the last visible code unit. *)
Lemma trim_end_upto_visible front c back :
  is_space c = false ->
  exists back', reverse (skip_ws (reverse (front ++ c :: back))) = front ++ c :: back'.
Proof.
  intros Hc. rewrite reverse_app, reverse_cons, <- app_assoc. simpl.
  destruct (skip_ws_upto_visible (reverse back) c (reverse front) Hc) as [kept ->].
  exists (reverse kept).
  by rewrite reverse_app, reverse_cons, reverse_involutive, <- app_assoc.
Qed.

Lemma all_space_reverse ws : all_space (reverse ws) = all_space ws.
Proof.
  unfold all_space. apply eq_true_iff_eq. rewrite !forallb_forall.
  split; intros H x Hx; apply H; apply list_elem_of_In;
    apply list_elem_of_In in Hx; by apply elem_of_reverse.
Qed.

Lemma trim_end_blank front c ws :
  is_space c = false -> all_space ws = true ->
  reverse (skip_ws (reverse (front ++ c :: ws))) = front ++ [c].
Proof.
  intros Hc Hws. rewrite reverse_app, reverse_cons, <- app_assoc. simpl.
  rewrite skip_ws_blank by by rewrite all_space_reverse.
  simpl. rewrite Hc. by rewrite reverse_cons, reverse_involutive.
Qed.

Lemma sep_at_visible c s : is_space c = false -> sep_at (c :: s) = false.
Proof. simpl. by intros ->. Qed.

Lemma sep_at_separator ws2 ws3 s :
  all_space ws2 = true -> truthy_str ws2 = true ->
  all_space ws3 = true -> truthy_str ws3 = true ->
  sep_at (ws2 ++ 68 :: ws3 ++ s) = true.
Proof.
  intros H2 N2 H3 N3. destruct ws2 as [|c ws2]; [done|].
  apply andb_true_iff in H2 as [Hc H2]. simpl. rewrite Hc. simpl.
  rewrite skip_ws_blank by done. simpl.
  destruct ws3 as [|c3 ws3]; [done|].
  apply andb_true_iff in H3 as [Hc3 _]. simpl. by rewrite Hc3.
Qed.

(** No separator starts inside an amount, and white space that is followed
    by an amount is not a separator either. *)
Lemma split_first_amount a s :
  forallb is_amount_char a = true ->
  split_first (a ++ s) = a ++ split_first s.
Proof.
  induction a as [|c a IH]; [done|].
  intros [Hc Ha]%andb_true_iff. cbn [app split_first].
  rewrite sep_at_visible by by apply amount_char_visible.
  f_equal. auto.
Qed.

Lemma split_first_blank_amount ws a s :
  all_space ws = true -> is_amount a = true ->
  split_first (ws ++ a ++ s) = ws ++ a ++ split_first s.
Proof.
  intros Hws [Na Ha]%andb_true_iff.
  induction ws as [|c ws IH].
  - simpl. by apply split_first_amount.
  - apply andb_true_iff in Hws as [Hc Hws]. cbn [app split_first].
    replace (sep_at (c :: ws ++ a ++ s)) with false; [f_equal; auto|].
    simpl. rewrite Hc, skip_ws_blank by done.
    destruct a as [|d a]; [done|]. apply andb_true_iff in Ha as [Hd _].
    cbn [app]. rewrite skip_ws_visible by by apply amount_char_visible.
    destruct (a ++ s); simpl; [done|].
    apply amount_char_not_marker, N.eqb_neq in Hd. by rewrite Hd.
Qed.

Lemma split_first_stops s : sep_at s = true -> split_first s = [].
Proof. destruct s; [done|]. intros H. cbn [split_first]. by rewrite H. Qed.

Lemma collapse_amount_false a s :
  forallb is_amount_char a = true ->
  collapse_from false (a ++ s) = a ++ collapse_from false s.
Proof. destruct a; [done|]. intros H. by apply collapse_amount. Qed.

Lemma collapse_blank_then_visible b ws c s :
  all_space ws = true -> is_space c = false ->
  exists sp, all_space sp = true /\
    collapse_from b (ws ++ c :: s) = sp ++ c :: collapse_from false s.
Proof.
  intros Hws Hc. destruct ws as [|w ws].
  - exists []. split; [done|]. by apply collapse_visible.
  - rewrite collapse_blank, collapse_visible by done.
    exists (if b then [] else [32]). by destruct b.
Qed.

Lemma amount_last a :
  is_amount a = true ->
  exists a0 z, a = a0 ++ [z] /\ is_space z = false.
Proof.
  intros [Na Ha]%andb_true_iff.
  destruct (exists_last (l := a)) as (a0 & z & ->); [by destruct a|].
  exists a0, z. split; [done|]. apply amount_char_visible.
  rewrite forallb_app in Ha. apply andb_true_iff in Ha as [_ Hz].
  simpl in Hz. by rewrite andb_true_r in Hz.
Qed.

(** The text that line 107 receives for a price of the site's layout: the
    marker, at most one blank, the amount, and either nothing or the
    separator and more text. *)
Lemma clean_price_shape ws0 ws1 a tail :
  all_space ws0 = true -> all_space ws1 = true -> is_amount a = true ->
  price_tail_view tail ->
  exists sp1 more,
    all_space sp1 = true /\
    (more = [] \/ sep_at more = true) /\
    cleanPriceText (ws0 ++ 68 :: ws1 ++ a ++ tail) = 68 :: sp1 ++ a ++ more.
Proof.
  intros H0 H1 Ha Htail. unfold cleanPriceText, collapse_ws, trim.
  destruct (collapse_blank_then_visible false ws0 68 (ws1 ++ a ++ tail) H0 marker_visible)
    as (sp0 & Hsp0 & ->).
  rewrite skip_ws_blank, skip_ws_visible by done.
  pose proof Ha as [Na Hchars]%andb_true_iff.
  destruct a as [|d a']; [done|]. pose proof Hchars as [Hd Ha']%andb_true_iff.
  cbn [app].
  destruct (collapse_blank_then_visible false ws1 d (a' ++ tail) H1
              (amount_char_visible d Hd)) as (sp1 & Hsp1 & ->).
  rewrite collapse_amount_false by done.
  exists sp1. destruct Htail as [ws Hws | ws2 ws3 c rest H2 N2 H3 N3 Hc].
  - exists []. split; [done|]. split; [by left|].
    rewrite collapse_blank_only by done.
    destruct (amount_last (d :: a') Ha) as (a0 & z & Heq & Hz).
    change (68 :: sp1 ++ d :: a' ++ ?t) with ((68 :: sp1) ++ (d :: a') ++ t).
    rewrite Heq, <- !app_assoc, app_assoc. cbn [app].
    rewrite (app_assoc sp1 a0 [z]).
    apply (trim_end_blank (68 :: sp1 ++ a0) z); [done | by destruct (truthy_str ws)].
  - rewrite collapse_blank, collapse_visible by done.
    rewrite collapse_blank, collapse_visible by done. cbn [app].
    assert (Hre : forall t, 68 :: sp1 ++ d :: a' ++ 32 :: 68 :: 32 :: c :: t
                    = (68 :: sp1 ++ d :: a' ++ [32; 68; 32]) ++ c :: t).
    { intros t. cbn [app]. f_equal. rewrite <- app_assoc. cbn [app].
      do 2 f_equal. by rewrite <- app_assoc. }
    rewrite Hre.
    destruct (trim_end_upto_visible (68 :: sp1 ++ d :: a' ++ [32; 68; 32]) c
                (collapse_from false rest) Hc) as (kept & ->).
    exists (32 :: 68 :: 32 :: c :: kept). split; [done|]. split; [by right|].
    by rewrite Hre.
Qed.

Lemma skip_ws_split s : exists ws, all_space ws = true /\ s = ws ++ skip_ws s.
Proof.
  induction s as [|c s (ws & Hws & Heq)]; [by exists []|].
  simpl. destruct (is_space c) eqn:Hc.
  - exists (c :: ws). split; [simpl; by rewrite Hc|]. simpl. by f_equal.
  - by exists [].
Qed.

Lemma skip_ws_head s :
  match skip_ws s with c :: _ => is_space c = false | [] => True end.
Proof.
  induction s as [|c s IH]; [done|]. simpl.
  destruct (is_space c) eqn:Hc; [done|]. by rewrite Hc.
Qed.

Lemma price_tail_spec tail : price_tail tail = true -> price_tail_view tail.
Proof.
  unfold price_tail. intros [Hblank | H]%orb_true_iff; [by constructor|].
  destruct tail as [|w tail']; [done|].
  apply andb_true_iff in H as [Hw H].
  destruct (skip_ws_split (w :: tail')) as (ws2 & H2 & Heq).
  destruct (skip_ws (w :: tail')) as [|m [|w3 t]] eqn:Hskip; try done.
  apply andb_true_iff in H as [[->%N.eqb_eq Hw3]%andb_true_iff Hrest].
  destruct (skip_ws_split t) as (ws & Hws & Ht).
  pose proof (skip_ws_head t) as Hc.
  destruct (skip_ws t) as [|c rest]; [done|].
  rewrite Heq, Ht.
  apply (tail_separator ws2 (w3 :: ws) c rest); try done.
  - destruct ws2; [|done]. simpl in Heq. injection Heq as -> _. done.
  - simpl. by rewrite Hw3.
Qed.

End Strings.


(** ** Price normalisation *)

Local Open Scope N_scope.

(** C7, as the code has it: a raw price text made of the site's currency
    marker [D], optional white space and a numeric amount, followed either by
    white space only or by the separator (white space, [D], white space) and
    further visible text, is normalised to ["AED "] followed by the amount:
    the marker, the separator and all that follows it are dropped. *)
Theorem price_normalization (ws0 ws1 a tail : jsstring) :
  all_space ws0 = true -> all_space ws1 = true ->
  is_amount a = true -> price_tail tail = true ->
  priceOfText (ws0 ++ 68 :: ws1 ++ a ++ tail) = js "AED " ++ a.
Proof.
  intros H0 H1 Ha Htail.
  destruct (clean_price_shape ws0 ws1 a tail H0 H1 Ha (price_tail_spec _ Htail))
    as (sp1 & more & Hsp1 & Hmore & Hclean).
  unfold priceOfText, normalizeCurrency. rewrite Hclean.
  cbn [split_first]. rewrite sep_at_visible by done.
  rewrite split_first_blank_amount by done.
  replace (split_first more) with (@nil N)
    by (destruct Hmore as [-> | Hsep]; [done | by rewrite split_first_stops]).
  cbn [replace_marker]. rewrite skip_ws_blank, app_nil_r by done.
  apply andb_true_iff in Ha as [Na Ha]. destruct a as [|d a]; [done|].
  apply andb_true_iff in Ha as [Hd _].
  by rewrite skip_ws_visible by by apply amount_char_visible.
Qed.

Lemma price_normalization_witness :
  priceOfText (js "D 1,299 D 1,499 25% OFF") = js "AED 1,299".
Proof.
  apply (price_normalization [] (js " ") (js "1,299") (js " D 1,499 25% OFF"));
    reflexivity.
Defined.

(** C7 as worded fails: a text in which the amount comes first and the
    marker follows a separator keeps its marker and gets no ["AED "]
    prefix; with the separator in the middle the amount alone is left; and
    when the marker comes first, a separator that ends the text is kept. *)
Lemma price_amount_first_not_prefixed :
  priceOfText (js "1299 D") = js "1299 D" /\
  priceOfText (js "1299 D") <> js "AED 1299" /\
  priceOfText (js "1299 D 1499") = js "1299" /\
  priceOfText (js "1299 D 1499") <> js "AED 1299" /\
  priceOfText (js "D 1299 D") = js "AED 1299 D".
Proof. repeat split; (reflexivity || discriminate). Qed.

Local Open Scope Z_scope.

(** ** The extraction loop: one visit per address *)

Section Dedup.

Lemma visit_spec c results seen :
  visit c results seen =
  match cardUrl c with
  | None => (results, seen)
  | Some u =>
      if negb (isProductUrl u) || bool_decide (u ∈ seen)
      then (results, seen)
      else (if emits c then results ++ [recordOf (length results) u c] else results,
            {[u]} ∪ seen)
  end.
Proof.
  unfold visit, cardUrl, isProductUrl. destruct (linkEl c) as [a|]; simpl; [|done].
  destruct (negb _ || _); [done|]. by destruct (emits c).
Qed.

Lemma carrying_snoc_other u results p :
  url p <> u -> carrying u (results ++ [p]) = carrying u results.
Proof.
  intros Hne. unfold carrying. rewrite filter_app, filter_cons_False by done.
  by rewrite filter_nil, app_nil_r.
Qed.

Lemma carrying_snoc_same u results p :
  url p = u -> carrying u (results ++ [p]) = carrying u results ++ [p].
Proof.
  intros He. unfold carrying. by rewrite filter_app, filter_cons_True by done.
Qed.

Lemma carrying_covered u results seen :
  covered results seen -> u ∉ seen -> carrying u results = [].
Proof.
  intros Hcov Hu. unfold carrying. induction results as [|p results IH]; [done|].
  rewrite filter_cons_False.
  - apply IH. intros q Hq. apply Hcov. by right.
  - intros <-. apply Hu, Hcov. by left.
Qed.

Lemma covered_visit c results seen :
  covered results seen ->
  covered (visit c results seen).1 (visit c results seen).2.
Proof.
  intros Hcov. rewrite visit_spec. destruct (cardUrl c) as [u|]; [|done].
  destruct (negb _ || _); [done|]. simpl.
  intros p Hp. destruct (emits c).
  - apply elem_of_app in Hp as [Hp | ->%list_elem_of_singleton]; [|set_solver].
    apply Hcov in Hp. set_solver.
  - apply Hcov in Hp. set_solver.
Qed.

(** Once an address is in [seen], no later card adds a record for it. *)
Lemma loop_seen u cards : forall results seen,
  u ∈ seen ->
  carrying u (extract_loop cards results seen) = carrying u results.
Proof.
  induction cards as [|c cards IH]; intros results seen Hu; [done|].
  cbn [extract_loop]. rewrite visit_spec.
  destruct (cardUrl c) as [v|]; [|by apply IH].
  destruct (negb _ || _) eqn:Hskip; [by apply IH|].
  apply orb_false_iff in Hskip as [_ Hv%bool_decide_eq_false].
  rewrite IH by set_solver. destruct (emits c); [|done].
  apply carrying_snoc_other. simpl. by intros ->.
Qed.

(** An address that is not a product-detail address never gets a record. *)
Lemma loop_not_product u cards : forall results seen,
  isProductUrl u = false ->
  carrying u (extract_loop cards results seen) = carrying u results.
Proof.
  induction cards as [|c cards IH]; intros results seen Hu; [done|].
  cbn [extract_loop]. rewrite visit_spec.
  destruct (cardUrl c) as [v|]; [|by apply IH].
  destruct (negb _ || _) eqn:Hskip; [by apply IH|].
  apply orb_false_iff in Hskip as [Hv%negb_false_iff _].
  rewrite IH by done. destruct (emits c); [|done].
  apply carrying_snoc_other. simpl. intros ->. congruence.
Qed.

(** The first card that resolves to an unseen product address decides. *)
Lemma loop_unseen u cards : forall results seen,
  u ∉ seen -> isProductUrl u = true -> covered results seen ->
  match find (resolvesTo u) cards with
  | Some c =>
      if emits c
      then exists n, carrying u (extract_loop cards results seen) = [recordOf n u c]
      else carrying u (extract_loop cards results seen) = []
  | None => carrying u (extract_loop cards results seen) = []
  end.
Proof.
  induction cards as [|c cards IH]; intros results seen Hu Hprod Hcov.
  { simpl. by eapply carrying_covered. }
  cbn [extract_loop find]. unfold resolvesTo at 1.
  pose proof (covered_visit c results seen Hcov) as Hcov'.
  rewrite visit_spec in *. destruct (cardUrl c) as [v|] eqn:Hc.
  2: { rewrite bool_decide_eq_false_2 by done. by apply IH. }
  destruct (decide (v = u)) as [->|Hne].
  - rewrite bool_decide_eq_true_2 by done.
    rewrite Hprod, bool_decide_eq_false_2 by done. simpl.
    rewrite loop_seen by set_solver.
    destruct (emits c).
    + exists (length results).
      rewrite carrying_snoc_same by done.
      by rewrite (carrying_covered _ _ _ Hcov Hu).
    + by eapply carrying_covered.
  - rewrite bool_decide_eq_false_2 by congruence.
    destruct (negb _ || _); [by apply IH|].
    simpl in Hcov'. apply IH; [|done|done].
    apply not_elem_of_union. split; [|done]. by intros ?%elem_of_singleton.
Qed.

Lemma loop_nodup cards : forall results seen,
  covered results seen -> NoDup (url <$> results) ->
  NoDup (url <$> extract_loop cards results seen).
Proof.
  induction cards as [|c cards IH]; intros results seen Hcov Hnd; [done|].
  cbn [extract_loop].
  pose proof (covered_visit c results seen Hcov) as Hcov'.
  rewrite visit_spec in *. destruct (cardUrl c) as [v|]; [|by apply IH].
  destruct (negb _ || _) eqn:Hskip; [by apply IH|].
  apply orb_false_iff in Hskip as [_ Hv%bool_decide_eq_false].
  apply IH; [done|]. simpl. destruct (emits c); [|done].
  rewrite fmap_app. apply NoDup_app. split; [done|]. split; [|apply NoDup_singleton].
  intros x (p & Hx & Hp)%list_elem_of_fmap Hlast%list_elem_of_singleton.
  simpl in Hlast. apply Hv. rewrite <- Hlast, Hx. by apply Hcov.
Qed.

End Dedup.

(** C4, as the code has it: the addresses of a result are pairwise
    distinct, and the records carrying a given address are decided by the
    first card, in document order, that resolves to it: that card's record
    when the address is a product-detail address and the card yields a title
    or a price, no record at all otherwise.  Later cards with the same
    address are never consulted. *)
Theorem extract_dedup (d : Document) (u : jsstring) :
  NoDup (url <$> extract d) /\
  match find (resolvesTo u) (discover d) with
  | Some c =>
      if isProductUrl u && emits c
      then exists n, carrying u (extract d) = [recordOf n u c]
      else carrying u (extract d) = []
  | None => carrying u (extract d) = []
  end.
Proof.
  unfold extract. split.
  - apply loop_nodup; [by intros p Hp%elem_of_nil | constructor].
  - destruct (isProductUrl u) eqn:Hprod.
    + pose proof (loop_unseen u (discover d) [] ∅) as H.
      destruct (find _ _) as [c|]; simpl;
        apply H; try done; by intros p Hp%elem_of_nil.
    + rewrite loop_not_product by done. by destruct (find _ _).
Qed.

(** C4 as worded fails: when the first of two links to one product yields
    neither a title nor a price, its address is marked as seen all the same,
    the second link is skipped, and no record carries the address. *)
Lemma dedup_first_card_silent :
  let u := js "https://x/product/1" in
  let d := linksOnly [pictureLink; titleLink] in
  discover d = [pictureLink; titleLink] /\
  cardUrl pictureLink = Some u /\ cardUrl titleLink = Some u /\
  isProductUrl u = true /\ emits titleLink = true /\
  carrying u (extract d) = [] /\ extract d = [].
Proof. vm_compute. repeat split; reflexivity. Qed.

(** ** The sentinel rule *)

Section Sentinel.

Lemma truthy_or_else a b : truthy (or_else a b) = truthy a || truthy b.
Proof. unfold or_else. destruct (truthy a) eqn:Ha; [by rewrite Ha | done]. Qed.

Lemma title_truthy k : truthy (titleOf k) = titleMatch k.
Proof.
  unfold titleOf, titleMatch, titleLookups. rewrite !truthy_or_else. simpl.
  by rewrite orb_false_r, !orb_assoc.
Qed.

Lemma or_str_truthy v b :
  truthy v = true -> Some (or_str v b) = v.
Proof. destruct v as [s|]; [|done]. simpl. by intros ->. Qed.

Lemma or_str_falsy v b : truthy v = false -> or_str v b = b.
Proof. destruct v as [s|]; [|done]. simpl. by intros ->. Qed.

Lemma normalizeCurrency_truthy p :
  truthy_str (normalizeCurrency p) = truthy_str p.
Proof.
  unfold normalizeCurrency. destruct p as [|c p]; [done|]. cbn [or_str].
  by destruct (truthy_str (replace_marker _)) eqn:H.
Qed.

Lemma price_truthy k : truthy_str (priceOf k) = priceMatch k.
Proof.
  unfold priceOf, priceMatch, rawPriceOf, cleanedText.
  rewrite normalizeCurrency_truthy.
  destruct (cleanPriceText <$> _) as [s|]; [|done]. simpl. by destruct s.
Qed.

End Sentinel.

(** C5, as the code has it.  A card that got past the link checks yields a
    title when some title lookup finds an element with visible text, and a
    price when the first price element that exists (test attribute, then
    class [price], then class [Price]) has visible text.  With neither, no
    record is pushed; with exactly one, a record is pushed whose other field
    is ["N/A"]. *)
Theorem sentinel_rule (c : Card) (a : Anchor) (results : list Product)
    (seen : gset jsstring) :
  linkEl c = Some a -> isProductUrl (linkUrl a) = true -> linkUrl a ∉ seen ->
  let k := container c in
  let out := (visit c results seen).1 in
  match titleMatch k, priceMatch k with
  | false, false => out = results
  | true, false =>
      exists p, out = results ++ [p] /\
        Some (title p) = titleOf k /\ price p = js "N/A"
  | false, true =>
      exists p, out = results ++ [p] /\
        title p = js "N/A" /\ price p = priceOf k /\ truthy_str (price p) = true
  | true, true =>
      exists p, out = results ++ [p] /\
        Some (title p) = titleOf k /\ price p = priceOf k
  end.
Proof.
  intros Hlink Hprod Hseen k out. subst out.
  rewrite visit_spec. unfold cardUrl. rewrite Hlink. simpl.
  rewrite Hprod, bool_decide_eq_false_2 by done. simpl.
  unfold emits. fold k. rewrite title_truthy, price_truthy.
  pose proof (title_truthy k) as Ht. pose proof (price_truthy k) as Hp.
  destruct (titleMatch k), (priceMatch k); simpl; [| | |done];
    eexists; (split; [reflexivity|]); simpl; subst k; rewrite Hp.
  - split; [by apply or_str_truthy | done].
  - split; [by apply or_str_truthy | done].
  - split; [by apply or_str_falsy | done].
Qed.

Lemma sentinel_rule_witness :
  exists p, (visit titleLink [] ∅).1 = [] ++ [p] /\
    Some (title p) = titleOf (container titleLink) /\ price p = js "N/A".
Proof.
  apply (sentinel_rule titleLink
           {| href := js "https://x/product/1";
              hrefAttr := Some (js "https://x/product/1") |} [] ∅).
  - reflexivity.
  - reflexivity.
  - apply not_elem_of_empty.
Defined.

(** C5 as worded fails: a price lookup of the card finds visible text and no
    title lookup does, yet no record is pushed, because the first price
    element that exists is empty and the later ones are not read. *)
Lemma sentinel_first_price_element_only :
  let k := container emptyFirstPrice in
  titleMatch k = false /\ anyPriceMatch k = true /\
  cardUrl emptyFirstPrice = Some (js "https://x/product/9") /\
  extract (linksOnly [emptyFirstPrice]) = [].
Proof. vm_compute. repeat split; reflexivity. Qed.

(** ** The cache manager *)

Section CacheManager.

Lemma cacheValid_hit c now : cacheValid c now = true <-> hitCondition c now.
Proof.
  unfold cacheValid, hitCondition, CACHE_DURATION. split.
  - intros [Hlen Htime]%andb_true_iff. split.
    + destruct (cachedProducts c); [done | discriminate].
    + destruct (lastScrapeTime c) as [t|]; [|done]. exists t.
      apply andb_true_iff in Htime as [Hnz Hlt].
      apply negb_true_iff, Z.eqb_neq in Hnz. apply Z.ltb_lt in Hlt. by repeat split.
  - intros [Hne (t & -> & Hnz & Hlt)]. apply andb_true_iff. split.
    + by destruct (cachedProducts c).
    + apply andb_true_iff. split; [by apply negb_true_iff, Z.eqb_neq | by apply Z.ltb_lt].
Qed.

Lemma cacheValid_miss c now : cacheValid c now = false <-> ~ hitCondition c now.
Proof. rewrite <- cacheValid_hit. by destruct (cacheValid c now). Qed.

Lemma step_settled st r s run clock :
  suspendedOf r (inflight st) = Some s ->
  step st (ScrapeSettled r run clock) =
    ({| cache := (settle s run clock (cache st)).1;
        inflight := resume r (inflight st) |},
     [Reply r (settle s run clock (cache st)).2]).
Proof. intros H. simpl. rewrite H. by destruct (settle s run clock (cache st)). Qed.

Lemma suspendedOf_suspend st r s :
  suspendedOf r (inflight st) = None ->
  suspendedOf r (inflight (suspend st r s)) = Some s.
Proof.
  unfold suspend. simpl. induction (inflight st) as [|[r' s'] l IH]; simpl.
  - by rewrite decide_True.
  - destruct (decide (r' = r)); [done | auto].
Qed.

(** Refresh requests that arrive one after the other all launch. *)
Lemma refreshes_pile_up st (rs : list nat) :
  (run_events st (GetRefresh <$> rs)).2 = LaunchScrape <$> rs /\
  length (inflight (run_events st (GetRefresh <$> rs)).1)
    = (length (inflight st) + length rs)%nat.
Proof.
  revert st. induction rs as [|r rs IH]; intros st.
  - simpl. split; [done | lia].
  - cbn [fmap list_fmap run_events step].
    destruct (IH (suspend st r AwaitRefresh)) as [Hout Hlen].
    destruct (run_events (suspend st r AwaitRefresh) (GetRefresh <$> rs)) as [st2 out2].
    simpl in *. split; [by rewrite Hout|].
    rewrite Hlen, length_app. simpl. lia.
Qed.

End CacheManager.

(** C1, as the code has it: a request to [GET /api/products] is served from
    the cache, with [cached = true] and without a scrape, exactly when the
    stored list is not empty, the timestamp is set and not zero, and
    [now - lastScrapeTime < 300000]; otherwise a scrape is launched, and
    when it succeeds the cache is replaced by its records, stamped with the
    [now] of the request, and they are returned with [cached = false].  An
    entry with records captured at [T] is served at [T + 4m59s] and not at
    [T + 5m01s]. *)
Theorem products_cache_decision (st : Server) (r : nat) (now : Z) :
  (hitCondition (cache st) now ->
     step st (GetProducts r now) =
       (st, [Reply r (ok (Success (length (cachedProducts (cache st))) (Some true)
                                  (cachedProducts (cache st))))])) /\
  (~ hitCondition (cache st) now ->
     step st (GetProducts r now) =
       (suspend st r (AwaitProducts now), [LaunchScrape r])) /\
  (forall st' d clock,
     suspendedOf r (inflight st') = Some (AwaitProducts now) ->
     step st' (ScrapeSettled r (Loaded d) clock) =
       ({| cache := {| cachedProducts := extract d; lastScrapeTime := Some now |};
           inflight := resume r (inflight st') |},
        [Reply r (ok (Success (length (extract d)) (Some false) (extract d)))])) /\
  (forall T,
     cachedProducts (cache st) <> [] -> lastScrapeTime (cache st) = Some T -> T <> 0 ->
     (step st (GetProducts r (T + 299000))).2
       = [Reply r (ok (Success (length (cachedProducts (cache st))) (Some true)
                               (cachedProducts (cache st))))] /\
     (step st (GetProducts r (T + 301000))).2 = [LaunchScrape r]).
Proof.
  split; [|split; [|split]].
  - intros Hhit%cacheValid_hit. simpl. by rewrite Hhit.
  - intros Hmiss%cacheValid_miss. simpl. by rewrite Hmiss.
  - intros st' d clock Hs. by rewrite (step_settled _ _ _ _ _ Hs).
  - intros T Hne HT Hnz. split.
    + assert (Hhit : hitCondition (cache st) (T + 299000)).
      { split; [done|]. exists T. repeat split; [done | done | lia]. }
      apply cacheValid_hit in Hhit. simpl. by rewrite Hhit.
    + assert (Hmiss : ~ hitCondition (cache st) (T + 301000)).
      { intros [_ (t & Heq & _ & Hlt)]. rewrite HT in Heq. injection Heq as <-. lia. }
      apply cacheValid_miss in Hmiss. simpl. by rewrite Hmiss.
Qed.

Lemma products_cache_decision_witness :
  let T := 1700000000000 in
  let st := (run_events initial
               [GetProducts 1 T; ScrapeSettled 1 (Loaded kettlePage) (T + 14000)]).1 in
  step st (GetProducts 2 (T + 299000))
    = (st, [Reply 2 (ok (Success 1 (Some true) (extract kettlePage)))]) /\
  step st (GetProducts 3 (T + 301000))
    = (suspend st 3 (AwaitProducts (T + 301000)), [LaunchScrape 3]) /\
  step (suspend st 3 (AwaitProducts (T + 301000)))
       (ScrapeSettled 3 (Loaded ironPage) (T + 315000))
    = ({| cache := {| cachedProducts := extract ironPage;
                      lastScrapeTime := Some (T + 301000) |};
          inflight := [] |},
       [Reply 3 (ok (Success 1 (Some false) (extract ironPage)))]).
Proof.
  intros T st. split; [|split].
  - apply (proj1 (products_cache_decision st 2 (T + 299000))).
    split; [discriminate|]. exists T.
    split; [reflexivity|]. split; [discriminate | lia].
  - apply (proj1 (proj2 (products_cache_decision st 3 (T + 301000)))).
    intros [_ (t & Heq & _ & Hlt)]. injection Heq as <-. lia.
  - apply (proj1 (proj2 (proj2 (products_cache_decision st 3 (T + 301000))))).
    reflexivity.
Defined.

(** C1 as worded fails: after a scrape that succeeded with no record, the
    cache holds an entry captured one second ago, and the next request
    launches a scrape all the same. *)
Lemma products_empty_entry_rescrapes :
  let T := 1700000000000 in
  let st := (run_events initial
               [GetProducts 1 T; ScrapeSettled 1 (Loaded threePictures) (T + 14000)]).1 in
  cache st = {| cachedProducts := []; lastScrapeTime := Some T |} /\
  entryYoung (cache st) (T + 1000) /\
  step st (GetProducts 2 (T + 1000)) =
    (suspend st 2 (AwaitProducts (T + 1000)), [LaunchScrape 2]).
Proof.
  repeat split. exists 1700000000000. split; [reflexivity | lia].
Qed.

(** C2: when the scrape of a suspended handler of either endpoint fails,
    the cache (records and timestamp) is exactly what it was, the reply is
    HTTP 500 with [{ success: false, error: message }], and a later request
    to [GET /api/products] is answered as it would have been before: with
    the prior records whenever they are still valid.  Reaching the [await]
    does not touch the cache either. *)
Theorem failed_scrape_keeps_cache (st : Server) (r : nat) (s : Suspended)
    (message : jsstring) (clock : Z) :
  suspendedOf r (inflight st) = Some s ->
  let after := (step st (ScrapeSettled r (Threw message) clock)).1 in
  cache after = cache st /\
  (step st (ScrapeSettled r (Threw message) clock)).2
    = [Reply r {| status := 500; body := Failure message |}] /\
  (forall r' now', (step after (GetProducts r' now')).2
                   = (step st (GetProducts r' now')).2) /\
  (forall r' now', cacheValid (cache st) now' = true ->
     (step after (GetProducts r' now')).2
     = [Reply r' (ok (Success (length (cachedProducts (cache st))) (Some true)
                              (cachedProducts (cache st))))]) /\
  (forall r' now', cache (step st (GetProducts r' now')).1 = cache st) /\
  (forall r', cache (step st (GetRefresh r')).1 = cache st).
Proof.
  intros Hs after. subst after. rewrite (step_settled _ _ _ _ _ Hs). simpl.
  repeat split.
  - intros r' now'. by destruct (cacheValid (cache st) now').
  - intros r' now' ->. done.
  - intros r' now'. by destruct (cacheValid (cache st) now').
Qed.

Lemma failed_scrape_keeps_cache_witness :
  let T := 1700000000000 in
  let st := (run_events initial
               [GetProducts 1 T; ScrapeSettled 1 (Loaded kettlePage) (T + 14000);
                GetRefresh 2]).1 in
  let after := (step st (ScrapeSettled 2 (Threw (js "Navigation timeout")) (T + 80000))).1 in
  cache after = cache st /\
  (step st (ScrapeSettled 2 (Threw (js "Navigation timeout")) (T + 80000))).2
    = [Reply 2 {| status := 500; body := Failure (js "Navigation timeout") |}] /\
  (forall r' now', (step after (GetProducts r' now')).2
                   = (step st (GetProducts r' now')).2) /\
  (forall r' now', cacheValid (cache st) now' = true ->
     (step after (GetProducts r' now')).2
     = [Reply r' (ok (Success (length (cachedProducts (cache st))) (Some true)
                              (cachedProducts (cache st))))]) /\
  (forall r' now', cache (step st (GetProducts r' now')).1 = cache st) /\
  (forall r', cache (step st (GetRefresh r')).1 = cache st).
Proof.
  intros T st.
  apply (failed_scrape_keeps_cache st 2 AwaitRefresh (js "Navigation timeout") (T + 80000)).
  reflexivity.
Defined.

(** C3, as the code has it: there is no in-flight guard.  Every request to
    [GET /api/products/refresh], and every request to [GET /api/products]
    that is not served from the cache, launches a scrape of its own when it
    arrives, whatever the number of scrapes in flight, which grows by one;
    and every scrape that succeeds overwrites the cached records when it
    settles, so that the last one to settle decides them. *)
Theorem no_inflight_guard (st : Server) (r : nat) (now : Z) :
  ((step st (GetRefresh r)).2 = [LaunchScrape r] /\
   length (inflight (step st (GetRefresh r)).1) = S (length (inflight st))) /\
  (cacheValid (cache st) now = false ->
   (step st (GetProducts r now)).2 = [LaunchScrape r] /\
   length (inflight (step st (GetProducts r now)).1) = S (length (inflight st))) /\
  (forall s d clock,
     suspendedOf r (inflight st) = Some s ->
     cachedProducts (cache (step st (ScrapeSettled r (Loaded d) clock)).1) = extract d) /\
  (forall n,
     (run_events st (GetRefresh <$> seq 0 n)).2 = LaunchScrape <$> seq 0 n /\
     length (inflight (run_events st (GetRefresh <$> seq 0 n)).1)
       = (length (inflight st) + n)%nat).
Proof.
  split; [|split; [|split]].
  - split; [done|]. simpl. rewrite length_app. simpl. lia.
  - intros Hmiss. simpl. rewrite Hmiss. split; [done|].
    simpl. rewrite length_app. simpl. lia.
  - intros s d clock Hs. rewrite (step_settled _ _ _ _ _ Hs). by destruct s.
  - intros n. pose proof (refreshes_pile_up st (seq 0 n)) as H.
    by rewrite length_seq in H.
Qed.

Lemma no_inflight_guard_witness :
  let T := 1700000000000 in
  let st := (step initial (GetRefresh 1)).1 in
  length (inflight st) = 1%nat /\
  ((step st (GetProducts 2 T)).2 = [LaunchScrape 2] /\
   length (inflight (step st (GetProducts 2 T)).1) = 2%nat) /\
  cachedProducts (cache (step st (ScrapeSettled 1 (Loaded kettlePage) (T + 14000))).1)
    = extract kettlePage.
Proof.
  intros T st. split; [reflexivity|]. split.
  - apply (proj1 (proj2 (no_inflight_guard st 2 T))). reflexivity.
  - apply (proj1 (proj2 (proj2 (no_inflight_guard st 1 T))) AwaitRefresh). reflexivity.
Defined.

(** C3 as worded fails: a refresh that arrives while the scrape of another
    request is running launches a second scrape, both are in flight
    together, and the one that settles last overwrites the cache, whichever
    was requested first. *)
Lemma two_scrapes_in_flight :
  let T := 1700000000000 in
  let arrivals := [GetProducts 1 T; GetRefresh 2] in
  (run_events initial arrivals).2 = [LaunchScrape 1; LaunchScrape 2] /\
  inflight (run_events initial arrivals).1 = [(1%nat, AwaitProducts T); (2%nat, AwaitRefresh)] /\
  cachedProducts (cache (run_events initial
    (arrivals ++ [ScrapeSettled 1 (Loaded kettlePage) (T + 14000);
                  ScrapeSettled 2 (Loaded ironPage) (T + 15000)])).1)
    = extract ironPage /\
  cachedProducts (cache (run_events initial
    (arrivals ++ [ScrapeSettled 2 (Loaded ironPage) (T + 14000);
                  ScrapeSettled 1 (Loaded kettlePage) (T + 15000)])).1)
    = extract kettlePage /\
  extract kettlePage <> extract ironPage.
Proof. vm_compute. repeat split; (reflexivity || discriminate). Qed.

(** C6: a request to [GET /api/products/refresh] launches a scrape whatever
    the cache holds, a valid entry included; when the scrape succeeds, the
    cache is replaced by its records, stamped with the time of completion,
    and the reply is a success with these records and no [cached] field. *)
Theorem refresh_unconditional (st : Server) (r : nat) :
  step st (GetRefresh r) = (suspend st r AwaitRefresh, [LaunchScrape r]) /\
  (forall st' d clock,
     suspendedOf r (inflight st') = Some AwaitRefresh ->
     step st' (ScrapeSettled r (Loaded d) clock) =
       ({| cache := {| cachedProducts := extract d; lastScrapeTime := Some clock |};
           inflight := resume r (inflight st') |},
        [Reply r {| status := 200;
                    body := Success (length (extract d)) None (extract d) |}])).
Proof.
  split; [done|]. intros st' d clock Hs. by rewrite (step_settled _ _ _ _ _ Hs).
Qed.

Lemma refresh_unconditional_witness :
  let T := 1700000000000 in
  let st := (run_events initial
               [GetProducts 1 T; ScrapeSettled 1 (Loaded kettlePage) (T + 14000)]).1 in
  cacheValid (cache st) (T + 1000) = true /\
  step st (GetRefresh 2) = (suspend st 2 AwaitRefresh, [LaunchScrape 2]) /\
  step (suspend st 2 AwaitRefresh) (ScrapeSettled 2 (Loaded ironPage) (T + 15000))
    = ({| cache := {| cachedProducts := extract ironPage;
                      lastScrapeTime := Some (T + 15000) |};
          inflight := [] |},
       [Reply 2 {| status := 200; body := Success 1 None (extract ironPage) |}]).
Proof.
  intros T st. split; [reflexivity|]. split.
  - apply (proj1 (refresh_unconditional st 2)).
  - apply (proj2 (refresh_unconditional st 2)). reflexivity.
Defined.

(** C9: a reply with [cached = true] never carries an empty list; and while
    the stored list is empty, every request to [GET /api/products] launches
    a scrape, whatever the timestamp and the time of the request. *)
Theorem cached_reply_nonempty (st : Server) :
  (forall e r code n products,
     Reply r {| status := code; body := Success n (Some true) products |}
       ∈ (step st e).2 ->
     products <> [] /\ n = length products) /\
  (forall r now,
     cachedProducts (cache st) = [] ->
     step st (GetProducts r now) =
       (suspend st r (AwaitProducts now), [LaunchScrape r])).
Proof.
  split.
  - intros e r code n products Hin. destruct e as [r' now | r' | r' run clock]; simpl in Hin.
    + destruct (cacheValid (cache st) now) eqn:Hvalid.
      * apply list_elem_of_singleton in Hin. injection Hin as Hr Hcode Hn Hp.
        subst products n. split; [|done].
        by apply cacheValid_hit in Hvalid as [Hne _].
      * by apply list_elem_of_singleton in Hin.
    + by apply list_elem_of_singleton in Hin.
    + destruct (suspendedOf r' (inflight st)) as [s|]; [|by apply elem_of_nil in Hin].
      unfold settle in Hin.
      destruct (scrapeProducts run), s; simpl in Hin;
        by apply list_elem_of_singleton in Hin.
  - intros r now Hempty. simpl. unfold cacheValid. by rewrite Hempty.
Qed.

Lemma cached_reply_nonempty_witness :
  let T := 1700000000000 in
  let emptied := (run_events initial
    [GetProducts 1 T; ScrapeSettled 1 (Loaded threePictures) (T + 14000)]).1 in
  let filled := (run_events initial
    [GetProducts 1 T; ScrapeSettled 1 (Loaded kettlePage) (T + 14000)]).1 in
  lastScrapeTime (cache emptied) = Some T /\
  step emptied (GetProducts 2 (T + 1))
    = (suspend emptied 2 (AwaitProducts (T + 1)), [LaunchScrape 2]) /\
  (extract kettlePage <> [] /\ 1%nat = length (extract kettlePage)).
Proof.
  intros T emptied filled. split; [reflexivity|]. split.
  - apply (proj2 (cached_reply_nonempty emptied)). reflexivity.
  - apply (proj1 (cached_reply_nonempty filled) (GetProducts 2 (T + 1)) 2%nat 200).
    apply list_elem_of_singleton. reflexivity.
Defined.

(** C10: on a cache miss [GET /api/products] stamps the entry with the time
    read when the request arrived, and [GET /api/products/refresh] with the
    time read after the scrape completed.  For a scrape of duration [d] that
    started at [t0], the entry written by the former stops being served at
    [t0 + 300000], the one written by a refresh that completes at the same
    moment at [t0 + d + 300000]. *)
Theorem timestamps_differ (st : Server) (r : nat) (t0 d : Z) (page : Document) :
  cacheValid (cache st) t0 = false ->
  suspendedOf r (inflight st) = None ->
  let viaProducts :=
    cache (run_events st [GetProducts r t0;
                          ScrapeSettled r (Loaded page) (t0 + d)]).1 in
  let viaRefresh :=
    cache (run_events st [GetRefresh r;
                          ScrapeSettled r (Loaded page) (t0 + d)]).1 in
  viaProducts = {| cachedProducts := extract page; lastScrapeTime := Some t0 |} /\
  viaRefresh = {| cachedProducts := extract page; lastScrapeTime := Some (t0 + d) |} /\
  (extract page <> [] -> t0 <> 0 -> t0 + d <> 0 ->
   forall now,
     (cacheValid viaProducts now = true <-> now < t0 + CACHE_DURATION) /\
     (cacheValid viaRefresh now = true <-> now < t0 + d + CACHE_DURATION)).
Proof.
  intros Hmiss Hfree viaProducts viaRefresh.
  assert (HP : viaProducts
               = {| cachedProducts := extract page; lastScrapeTime := Some t0 |}).
  { subst viaProducts. cbn [run_events step]. rewrite Hmiss.
    by rewrite (suspendedOf_suspend st r _ Hfree). }
  assert (HR : viaRefresh
               = {| cachedProducts := extract page; lastScrapeTime := Some (t0 + d) |}).
  { subst viaRefresh. cbn [run_events step].
    by rewrite (suspendedOf_suspend st r _ Hfree). }
  split; [done|]. split; [done|]. intros Hne H0 H1 now. rewrite HP, HR.
  rewrite !cacheValid_hit. unfold hitCondition, CACHE_DURATION. simpl. split; split.
  - intros [_ (t & [= <-] & _ & Hlt)]. lia.
  - intros Hlt. split; [done|]. exists t0. repeat split; [done | lia].
  - intros [_ (t & [= <-] & _ & Hlt)]. lia.
  - intros Hlt. split; [done|]. exists (t0 + d). repeat split; [done | lia].
Qed.

Lemma timestamps_differ_witness :
  let T := 1700000000000 in
  let viaProducts :=
    cache (run_events initial [GetProducts 7 T;
                               ScrapeSettled 7 (Loaded kettlePage) (T + 14000)]).1 in
  let viaRefresh :=
    cache (run_events initial [GetRefresh 7;
                               ScrapeSettled 7 (Loaded kettlePage) (T + 14000)]).1 in
  viaProducts = {| cachedProducts := extract kettlePage; lastScrapeTime := Some T |} /\
  viaRefresh = {| cachedProducts := extract kettlePage;
                  lastScrapeTime := Some (T + 14000) |} /\
  (extract kettlePage <> [] -> T <> 0 -> T + 14000 <> 0 ->
   forall now,
     (cacheValid viaProducts now = true <-> now < T + CACHE_DURATION) /\
     (cacheValid viaRefresh now = true <-> now < T + 14000 + CACHE_DURATION)).
Proof.
  intros T.
  apply (timestamps_differ initial 7 T 14000 kettlePage); reflexivity.
Defined.

(** ** The image relay *)

(** C8, as the code has it: the relay answers 400 without calling [fetch]
    exactly when the [url] parameter is absent or is the empty string; and
    whenever the upstream answers with a status outside 200-299, that
    status is the status of the reply. *)
Theorem relay_status (fetch : QueryValue -> Fetched) (q : QueryValue) :
  (((imageProxy fetch q).1 = [] /\ rstatus (imageProxy fetch q).2 = 400)
   <-> (q = QMissing \/ q = QString [])) /\
  ((imageProxy fetch q).1 = [] -> rstatus (imageProxy fetch q).2 = 400) /\
  (forall code contentType bytes,
     (imageProxy fetch q).1 <> [] ->
     fetch q = Upstream code contentType bytes ->
     responseOk code = false ->
     (imageProxy fetch q).2
       = {| rstatus := code; rbody := ErrorJson (js "Failed to fetch image") |}).
Proof.
  unfold imageProxy. split; [split|split].
  - intros [Hcalls _]. destruct q as [|s|items|]; simpl in *; try done; [by left|].
    destruct s; [by right | done].
  - by intros [-> | ->].
  - by destruct (negb (queryTruthy q)).
  - intros code contentType bytes Hcalls Hfetch Hok.
    destruct (negb (queryTruthy q)); [done|]. simpl. by rewrite Hfetch, Hok.
Qed.

Lemma relay_status_witness :
  ((imageProxy alwaysImage QMissing).1 = [] /\
   rstatus (imageProxy alwaysImage QMissing).2 = 400) /\
  (imageProxy alwaysNotFound (QString (js "https://cdn/x.jpg"))).2
    = {| rstatus := 404; rbody := ErrorJson (js "Failed to fetch image") |}.
Proof.
  split.
  - apply (proj1 (relay_status alwaysImage QMissing)). by left.
  - apply (proj2 (proj2 (relay_status alwaysNotFound (QString (js "https://cdn/x.jpg"))))
             404 None None); [discriminate | reflexivity | reflexivity].
Defined.

(** C8 as worded fails: with [?url=] the parameter is present, and the
    relay answers 400 without any fetch. *)
Lemma relay_empty_url_rejected :
  imageProxy alwaysImage (QString [])
    = ([], {| rstatus := 400; rbody := ErrorJson (js "Missing url parameter") |}) /\
  QString [] <> QMissing.
Proof. split; [reflexivity | discriminate]. Qed.

Example relay_forwards_404 :
  imageProxy alwaysNotFound (QString (js "https://cdn/x.jpg"))
    = ([QString (js "https://cdn/x.jpg")],
       {| rstatus := 404; rbody := ErrorJson (js "Failed to fetch image") |}).
Proof. reflexivity. Qed.

(** * Further properties of the code *)

(** ** Records of one extraction *)

Section Records.

Lemma loop_ids cards : forall results seen,
  id <$> results = seq 1 (length results) ->
  id <$> extract_loop cards results seen
    = seq 1 (length (extract_loop cards results seen)).
Proof.
  induction cards as [|c cards IH]; intros results seen Hids; [done|].
  cbn [extract_loop]. rewrite visit_spec.
  destruct (cardUrl c) as [u|]; [|by apply IH].
  destruct (negb _ || _); [by apply IH|].
  destruct (emits c); apply IH; [|done].
  rewrite fmap_app, length_app, seq_app, Hids. simpl.
  do 2 f_equal. lia.
Qed.

Lemma or_str_filled v b : truthy_str b = true -> truthy_str (or_str v b) = true.
Proof.
  intros Hb. destruct v as [s|]; [|done]. simpl.
  by destruct (truthy_str s) eqn:Hs.
Qed.

Lemma or_str_self s : or_str (Some s) [] = s.
Proof. by destruct s. Qed.

Lemma imageOf_scheme k : startsWith (js "//") (imageOf k) = false.
Proof.
  unfold imageOf. destruct (startsWith (js "//") (or_str _ [])) eqn:H; done.
Qed.

Lemma recordOf_wellFormed n u c :
  isProductUrl u = true -> wellFormed (recordOf n u c).
Proof.
  intros Hu. unfold wellFormed, recordOf. cbn [url title price image].
  split; [done|]. split; [by apply or_str_filled|].
  split; [by apply or_str_filled|].
  rewrite or_str_self. apply imageOf_scheme.
Qed.

Lemma loop_wellFormed cards : forall results seen,
  Forall wellFormed results ->
  Forall wellFormed (extract_loop cards results seen).
Proof.
  induction cards as [|c cards IH]; intros results seen Hwf; [done|].
  cbn [extract_loop]. rewrite visit_spec.
  destruct (cardUrl c) as [u|]; [|by apply IH].
  destruct (negb _ || _) eqn:Hskip; [by apply IH|].
  apply orb_false_iff in Hskip as [Hu%negb_false_iff _].
  destruct (emits c); apply IH; [|done].
  apply Forall_app. split; [done|]. apply Forall_singleton.
  by apply recordOf_wellFormed.
Qed.

(** The loop only appends, one record per card at most, in the order of the
    cards. *)
Lemma loop_appends cards : forall results seen,
  exists pushed,
    extract_loop cards results seen = results ++ pushed /\
    (url <$> pushed) `sublist_of` omap cardUrl cards.
Proof.
  induction cards as [|c cards IH]; intros results seen.
  { exists []. by rewrite app_nil_r. }
  cbn [extract_loop omap list_omap]. rewrite visit_spec.
  destruct (cardUrl c) as [u|] eqn:Hc; [|by apply IH].
  destruct (negb _ || _).
  { destruct (IH results seen) as (pushed & -> & Hsub).
    exists pushed. split; [done|]. by apply sublist_cons_r; left. }
  destruct (emits c).
  - destruct (IH (results ++ [recordOf (length results) u c]) ({[u]} ∪ seen))
      as (pushed & -> & Hsub).
    exists (recordOf (length results) u c :: pushed).
    split; [by rewrite <- app_assoc|]. simpl. by apply sublist_skip.
  - destruct (IH results ({[u]} ∪ seen)) as (pushed & -> & Hsub).
    exists pushed. split; [done|]. by apply sublist_cons_r; left.
Qed.

Lemma loop_no_links cards : forall results seen,
  Forall (fun c => linkEl c = None) cards ->
  extract_loop cards results seen = results.
Proof.
  induction cards as [|c cards IH]; intros results seen Hnone; [done|].
  apply Forall_cons in Hnone as [Hc Hrest].
  cbn [extract_loop]. unfold visit. rewrite Hc. by apply IH.
Qed.

Lemma omap_shorter {A B} (f : A -> option B) (l : list A) :
  (length (omap f l) <= length l)%nat.
Proof.
  induction l as [|x l IH]; [done|]. cbn [omap list_omap].
  destruct (f x); simpl; fold (omap f l); lia.
Qed.

Lemma titleOf_firstTruthy k :
  truthy (titleOf k) = truthy (firstTruthy (trimmedText <$> titleLookups k)) /\
  (truthy (titleOf k) = true ->
   titleOf k = firstTruthy (trimmedText <$> titleLookups k)).
Proof.
  unfold titleOf, titleLookups. cbn [fmap list_fmap].
  generalize (trimmedText (q_h2 k)) (trimmedText (q_h3 k)) (trimmedText (q_h4 k))
    (trimmedText (q_title k)) (trimmedText (q_name k)).
  intros a b c e f. unfold or_else. cbn [firstTruthy].
  destruct (truthy a) eqn:Ha; repeat (rewrite Ha; cbn iota); [done|].
  destruct (truthy b) eqn:Hb; repeat (rewrite Hb; cbn iota); [done|].
  destruct (truthy c) eqn:Hc; repeat (rewrite Hc; cbn iota); [done|].
  destruct (truthy e) eqn:He; repeat (rewrite He; cbn iota); [done|].
  destruct (truthy f) eqn:Hf; cbn iota; split; try done; by rewrite Hf.
Qed.

End Records.

(** X1: the [id] values of one extraction are 1, 2, ..., n in the order of
    the records. *)
Theorem extract_ids_dense (d : Document) :
  id <$> extract d = seq 1 (length (extract d)).
Proof. unfold extract. by apply loop_ids. Qed.

(** X2: every record of an extraction has an address that contains
    ["/product/"], a title and a price that are not empty (the sentinel
    fills what is missing), and an image that does not start with ["//"]. *)
Theorem extract_wellFormed (d : Document) : Forall wellFormed (extract d).
Proof. unfold extract. apply loop_wellFormed. constructor. Qed.

(** X3: the records come in document order, at most one per card: their
    addresses are a subsequence of the addresses of the discovered cards, so
    that there are never more records than cards. *)
Theorem extract_in_document_order (d : Document) :
  (url <$> extract d) `sublist_of` omap cardUrl (discover d) /\
  (length (extract d) <= length (discover d))%nat.
Proof.
  unfold extract.
  destruct (loop_appends (discover d) [] ∅) as (pushed & -> & Hsub). simpl.
  split; [done|]. apply sublist_length in Hsub.
  rewrite length_fmap in Hsub.
  pose proof (omap_shorter cardUrl (discover d)). lia.
Qed.

Section Fields.

Lemma firstTruthy_falsy chain :
  truthy (firstTruthy chain) = false -> firstTruthy chain = None.
Proof.
  induction chain as [|v chain IH]; [done|]. simpl.
  destruct (truthy v) eqn:Hv; [by rewrite Hv | done].
Qed.

End Fields.

(** X4: the cards are those of the first selector, in the order of the
    [selectors] array, that matches anything, and the result depends on
    nothing else: when these elements contain no link, the result is empty
    whatever the later selectors, the product links included, would match. *)
Theorem unusable_match_blocks_fallback (d : Document) (matched : list Card) :
  matched <> [] ->
  sel_testid d = matched \/
  (sel_testid d = [] /\ sel_product_card d = matched) \/
  (sel_testid d = [] /\ sel_product_card d = [] /\ sel_ProductCard d = matched) ->
  extract d = extract_loop matched [] ∅ /\
  (Forall (fun c => linkEl c = None) matched -> extract d = []).
Proof.
  intros Hne Hfirst.
  assert (Hcards : discover d = matched).
  { unfold discover, selectors. destruct matched as [|c rest]; [done|].
    destruct Hfirst as [-> | [[-> ->] | (-> & -> & ->)]]; reflexivity. }
  unfold extract. rewrite Hcards. split; [done|]. apply loop_no_links.
Qed.

Lemma unusable_match_blocks_fallback_witness :
  extract wrapperPage = extract_loop [wrapperCard] [] ∅ /\
  (Forall (fun c => linkEl c = None) [wrapperCard] -> extract wrapperPage = []).
Proof.
  apply (unusable_match_blocks_fallback wrapperPage [wrapperCard]).
  - discriminate.
  - left. reflexivity.
Defined.

(** X5: the title of a record is the trimmed text of the first lookup, in
    the order [h2], [h3], [h4], [[class*='title']], [[class*='name']], that
    has visible text, and ["N/A"] when none has. *)
Theorem title_priority (n : nat) (u : jsstring) (c : Card) :
  title (recordOf n u c)
  = match firstTruthy (trimmedText <$> titleLookups (container c)) with
    | Some t => t
    | None => js "N/A"
    end.
Proof.
  unfold recordOf. cbn [title].
  destruct (titleOf_firstTruthy (container c)) as [Hsame Heq].
  destruct (truthy (titleOf (container c))) eqn:Ht.
  - rewrite <- Heq by done. destruct (titleOf (container c)) as [t|]; [|done].
    simpl in *. by rewrite Ht.
  - rewrite or_str_falsy by done. by rewrite firstTruthy_falsy.
Qed.

(** X6: the image of a record is the [src] of the first [img] of the
    container, its [data-src] attribute when [src] is empty, and the empty
    string without an [img]; when that address starts with ["//"], it gets
    the scheme ["https:"] in front, and it is unchanged otherwise. *)
Theorem image_of_record (n : nat) (u : jsstring) (c : Card) :
  let k := container c in
  imageSource k
    = match q_img k with
      | None => []
      | Some img =>
          if truthy_str (src img) then src img
          else match dataSrc img with Some a => a | None => [] end
      end /\
  (forall rest, imageSource k = js "//" ++ rest ->
                image (recordOf n u c) = js "https://" ++ rest) /\
  (startsWith (js "//") (imageSource k) = false ->
   image (recordOf n u c) = imageSource k).
Proof.
  intros k. unfold recordOf. cbn [image]. rewrite or_str_self.
  unfold imageOf. fold k. fold (imageSource k). split; [|split].
  - unfold imageSource, or_else. destruct (q_img k) as [img|]; [|done]. simpl.
    destruct (truthy_str (src img)) eqn:Hsrc; simpl; [by rewrite Hsrc|].
    destruct (dataSrc img) as [a|]; [|done]. by destruct a.
  - intros rest ->. reflexivity.
  - by intros ->.
Qed.

Lemma image_of_record_witness :
  image (recordOf 0 (js "https://x/product/4") lazyPicture) = js "https://cdn.x/m.jpg".
Proof.
  apply (proj1 (proj2 (image_of_record 0 (js "https://x/product/4") lazyPicture))
           (js "cdn.x/m.jpg")).
  reflexivity.
Defined.

(** ** Strings of the extraction script *)

Section Cleaning.

Local Open Scope N_scope.

Lemma skip_ws_fixed s :
  (forall c, head s = Some c -> is_space c = false) -> skip_ws s = s.
Proof.
  destruct s as [|c s]; [done|]. intros H. simpl. by rewrite (H c).
Qed.

Lemma trim_parts s :
  exists before after,
    s = before ++ trim s ++ after /\
    all_space before = true /\ all_space after = true.
Proof.
  destruct (skip_ws_split s) as (before & Hbefore & Hs).
  destruct (skip_ws_split (reverse (skip_ws s))) as (tail & Htail & Hrev).
  exists before, (reverse tail). split; [|by rewrite all_space_reverse].
  unfold trim. rewrite <- reverse_app, <- Hrev, reverse_involutive. done.
Qed.

Lemma trim_visibleEnds s : visibleEnds (trim s).
Proof.
  unfold visibleEnds, trim.
  pose proof (skip_ws_head (reverse (skip_ws s))) as Hlast.
  pose proof (skip_ws_head s) as Hfirst.
  destruct (skip_ws_split (reverse (skip_ws s))) as (tail & Htail & Hrev).
  set (kept := skip_ws (reverse (skip_ws s))) in *.
  split.
  - intros c Hc.
    assert (Hy : skip_ws s = reverse kept ++ reverse tail).
    { by rewrite <- reverse_app, <- Hrev, reverse_involutive. }
    rewrite Hy in Hfirst. destruct (reverse kept) as [|x rest]; [done|].
    simpl in *. by injection Hc as <-.
  - intros c Hc. rewrite last_reverse in Hc.
    destruct kept as [|x rest]; [done|]. simpl in Hc. by injection Hc as <-.
Qed.

Lemma visibleEnds_trim s : visibleEnds s -> trim s = s.
Proof.
  intros [Hfirst Hlast]. unfold trim. rewrite (skip_ws_fixed s Hfirst).
  rewrite skip_ws_fixed; [by rewrite reverse_involutive|].
  intros c Hc. apply Hlast. by rewrite <- head_reverse.
Qed.

Lemma singleSpaced_app a b :
  singleSpaced (a ++ b) = true -> singleSpaced a = true /\ singleSpaced b = true.
Proof.
  induction a as [|c a IH]; [done|]. cbn [app singleSpaced].
  intros [[Hc Hadj]%andb_true_iff Hrest]%andb_true_iff.
  destruct (IH Hrest) as [Ha Hb]. split; [|done].
  rewrite Hc, Ha. destruct a; [done|]. simpl in *. by rewrite Hadj.
Qed.

Lemma collapse_singleSpaced s : forall b,
  singleSpaced (collapse_from b s) = true /\
  (b = true -> forall c, head (collapse_from b s) = Some c -> is_space c = false).
Proof.
  induction s as [|x s IH]; intros b; [done|]. cbn [collapse_from].
  destruct (is_space x) eqn:Hx.
  - destruct (IH true) as [Hss Hhead]. destruct b; [done|].
    split; [|done]. cbn [singleSpaced]. rewrite Hss. simpl.
    destruct (collapse_from true s) as [|y rest]; [done|].
    by rewrite (Hhead eq_refl y).
  - destruct (IH false) as [Hss _]. split.
    + cbn [singleSpaced]. rewrite Hss, Hx. simpl.
      by destruct (collapse_from false s).
    + intros _ c [= <-]. done.
Qed.

Lemma replace_marker_spec s :
  replace_marker s
  = match s with
    | c :: t => if c =? 68 then js "AED " ++ skip_ws t else s
    | [] => []
    end.
Proof.
  destruct s as [|c t]; [done|]. destruct c as [|p]; [done|].
  do 7 (destruct p as [p|p|]; try done).
Qed.

Lemma skip_ws_suffix s : skip_ws s `suffix_of` s.
Proof. destruct (skip_ws_split s) as (ws & _ & Hs). by exists ws. Qed.

Lemma sep_at_markerAfterSpace s : sep_at s = true -> markerAfterSpace s = true.
Proof.
  induction s as [|c t IH]; [done|]. intros Hsep.
  pose proof Hsep as [Hc Hrest]%andb_true_iff.
  destruct t as [|c' t']; [done|].
  change (markerAfterSpace (c :: c' :: t'))
    with ((is_space c && (c' =? 68)) || markerAfterSpace (c' :: t')).
  rewrite Hc. destruct (is_space c') eqn:Hc'.
  - rewrite IH; [by rewrite orb_true_r|]. simpl in *. by rewrite Hc' in *.
  - simpl in Hrest. rewrite Hc' in Hrest. destruct t' as [|w rest]; [done|].
    apply andb_true_iff in Hrest as [-> _]. done.
Qed.

Lemma split_first_prefix s : split_first s `prefix_of` s.
Proof.
  induction s as [|c s IH]; [done|]. cbn [split_first].
  destruct (sep_at (c :: s)); [apply prefix_nil | by apply prefix_cons].
Qed.

Lemma split_first_unmarked s : markerAfterSpace s = false -> split_first s = s.
Proof.
  induction s as [|c s IH]; [done|]. intros Hno. cbn [split_first].
  destruct (sep_at (c :: s)) eqn:Hsep.
  { apply sep_at_markerAfterSpace in Hsep. congruence. }
  f_equal. apply IH. destruct s as [|c' s']; [done|].
  change (markerAfterSpace (c :: c' :: s'))
    with ((is_space c && (c' =? 68)) || markerAfterSpace (c' :: s')) in Hno.
  by apply orb_false_iff in Hno as [_ Hno].
Qed.

End Cleaning.

Local Open Scope N_scope.

(** X7: [trim] removes white space at both ends and nothing else: the text
    is some white space, the trimmed text, and some white space; the
    trimmed text has no white space at either end; and trimming a text
    whose ends are visible, a trimmed text in particular, changes nothing. *)
Theorem trim_spec (s : jsstring) :
  (exists before after,
     s = before ++ trim s ++ after /\
     all_space before = true /\ all_space after = true) /\
  visibleEnds (trim s) /\
  trim (trim s) = trim s.
Proof.
  split; [apply trim_parts|]. split; [apply trim_visibleEnds|].
  apply visibleEnds_trim, trim_visibleEnds.
Qed.

(** X8: the text of a price element as line 106 cleans it has no white space
    at its ends, and inside only single spaces (U+0020) that are never
    adjacent to other white space. *)
Theorem cleaned_price_spacing (raw : jsstring) :
  singleSpaced (cleanPriceText raw) = true /\ visibleEnds (cleanPriceText raw).
Proof.
  unfold cleanPriceText. split; [|apply trim_visibleEnds].
  destruct (trim_parts (collapse_ws raw)) as (before & after & Heq & _ & _).
  destruct (collapse_singleSpaced raw false) as [Hss _].
  unfold collapse_ws in *. rewrite Heq in Hss.
  apply singleSpaced_app in Hss as [_ Hss].
  by apply singleSpaced_app in Hss as [Hss _].
Qed.

(** X9: a price text that does not start with [D] and in which no [D]
    follows white space passes through the currency normalisation unchanged;
    so does, in particular, a price that is normalised already. *)
Theorem unmarked_price_unchanged (p : jsstring) :
  (forall c, head p = Some c -> c <> 68) -> markerAfterSpace p = false ->
  normalizeCurrency p = p.
Proof.
  intros Hhead Hno. unfold normalizeCurrency.
  rewrite split_first_unmarked, replace_marker_spec by done.
  destruct p as [|c t]; [done|].
  destruct (N.eqb_spec c 68) as [->|_]; [by destruct (Hhead 68) | done].
Qed.

Lemma unmarked_price_unchanged_witness :
  normalizeCurrency (js "AED 1,299") = js "AED 1,299".
Proof.
  apply (unmarked_price_unchanged (js "AED 1,299")).
  - intros c [= <-]. discriminate.
  - reflexivity.
Defined.

(** X10: the currency normalisation never turns a price into the empty
    string and never makes one out of nothing; its result is either the
    start of its input or ["AED "] followed by a part of its input. *)
Theorem normalized_price_shape (p : jsstring) :
  truthy_str (normalizeCurrency p) = truthy_str p /\
  (normalizeCurrency p `prefix_of` p \/
   exists rest, normalizeCurrency p = js "AED " ++ rest /\ rest `sublist_of` p).
Proof.
  split; [apply normalizeCurrency_truthy|].
  unfold normalizeCurrency. rewrite replace_marker_spec.
  pose proof (split_first_prefix p) as Hpre.
  destruct (split_first p) as [|c t] eqn:Hsplit; [by left|].
  destruct (c =? 68) eqn:Hc; [|by left].
  right. exists (skip_ws t). split; [done|].
  destruct (skip_ws_suffix t) as [front Ht]. destruct Hpre as [back Hp].
  rewrite Hp. rewrite Ht at 2.
  apply sublist_inserts_r. apply sublist_cons_r. left.
  by apply sublist_inserts_l.
Qed.

Local Open Scope Z_scope.

(** ** Runs of the server *)

Section Runs.

Lemma extract_nil : extract (linksOnly []) = [].
Proof. reflexivity. Qed.

Lemma extract_complete d n :
  n = length (extract d) ->
  replyComplete {| status := 200; body := Success n (Some false) (extract d) |} /\
  replyComplete {| status := 200; body := Success n (Some true) (extract d) |} /\
  replyComplete {| status := 200; body := Success n None (extract d) |}.
Proof.
  intros ->.
  assert (NoDup (url <$> extract d)).
  { apply loop_nodup; [by intros p Hp%elem_of_nil | constructor]. }
  assert (id <$> extract d = seq 1 (length (extract d))) by by apply loop_ids.
  assert (Forall wellFormed (extract d)) by (apply loop_wellFormed; constructor).
  unfold replyComplete. simpl. repeat split; eauto.
Qed.

(** The cache holds the result of some extraction, and every reply of a
    step is complete. *)
Lemma step_complete st e :
  (exists d, cachedProducts (cache st) = extract d) ->
  (exists d, cachedProducts (cache (step st e).1) = extract d) /\
  (forall r resp, Reply r resp ∈ (step st e).2 -> replyComplete resp).
Proof.
  intros [d0 Hd0]. destruct e as [r now | r | r run clock]; simpl.
  - destruct (cacheValid (cache st) now); simpl.
    + split; [by exists d0|]. intros r' resp [= _ ->]%list_elem_of_singleton.
      rewrite Hd0. by apply extract_complete.
    + split; [by exists d0|]. by intros r' resp [=]%list_elem_of_singleton.
  - split; [by exists d0|]. by intros r' resp [=]%list_elem_of_singleton.
  - destruct (suspendedOf r (inflight st)) as [s|]; simpl.
    2: { split; [by exists d0|]. by intros r' resp ?%elem_of_nil. }
    unfold settle. destruct run as [message | d]; simpl.
    + split; [by exists d0|]. by intros r' resp [= _ ->]%list_elem_of_singleton.
    + destruct s; simpl; (split; [by exists d|]);
        intros r' resp [= _ ->]%list_elem_of_singleton; by apply extract_complete.
Qed.

Lemma run_complete es : forall st,
  (exists d, cachedProducts (cache st) = extract d) ->
  forall r resp, Reply r resp ∈ (run_events st es).2 -> replyComplete resp.
Proof.
  induction es as [|e es IH]; intros st Hinv r resp Hin.
  { by apply elem_of_nil in Hin. }
  cbn [run_events] in Hin.
  destruct (step_complete st e Hinv) as [Hinv' Hreplies].
  destruct (step st e) as [st1 out1]. specialize (IH st1 Hinv' r resp).
  destruct (run_events st1 es) as [st2 out2]. simpl in *.
  apply elem_of_app in Hin as [Hin | Hin]; eauto.
Qed.

Lemma resume_length r l s :
  suspendedOf r l = Some s -> S (length (resume r l)) = length l.
Proof.
  induction l as [|[r' s'] l IH]; [done|]. simpl.
  destruct (decide (r' = r)); [done|]. intros H. simpl. by rewrite IH.
Qed.

Lemma step_accounted st e :
  (countIf isLaunch (step st e).2 + length (inflight st)
   = length (inflight (step st e).1) + countIf isSettledReply (step st e).2)%nat.
Proof.
  destruct e as [r now | r | r run clock]; simpl.
  - destruct (cacheValid (cache st) now); simpl; [done|].
    rewrite length_app. simpl. unfold countIf. simpl. lia.
  - rewrite length_app. simpl. unfold countIf. simpl. lia.
  - destruct (suspendedOf r (inflight st)) as [s|] eqn:Hs; simpl; [|done].
    pose proof (resume_length _ _ _ Hs).
    unfold settle. destruct (scrapeProducts run), s; simpl; unfold countIf; simpl; lia.
Qed.

Lemma countIf_app f a b : countIf f (a ++ b) = (countIf f a + countIf f b)%nat.
Proof. unfold countIf. by rewrite List.filter_app, length_app. Qed.

Lemma harmless_keeps_cache es : forall st,
  forallb harmless es = true -> cache (run_events st es).1 = cache st.
Proof.
  induction es as [|e es IH]; intros st Hes; [done|].
  apply andb_true_iff in Hes as [He Hes]. cbn [run_events].
  assert (Hstep : cache (step st e).1 = cache st).
  { destruct e as [r now | r | r run clock]; simpl.
    - by destruct (cacheValid (cache st) now).
    - done.
    - destruct (suspendedOf r (inflight st)) as [s|]; [|done].
      destruct run as [message | d]; [done | discriminate]. }
  destruct (step st e) as [st1 out1]. specialize (IH st1 Hes).
  destruct (run_events st1 es) as [st2 out2]. simpl in *. congruence.
Qed.

End Runs.

(** X11: a step leaves the cache as it is unless it is the success of the
    scrape of a suspended handler; then both fields are replaced together,
    the records by the result of the extraction and the timestamp by the
    stamp of that handler. *)
Theorem cache_written_only_by_success (st : Server) (e : Event) :
  cache (step st e).1 = cache st \/
  exists r d clock s,
    e = ScrapeSettled r (Loaded d) clock /\
    suspendedOf r (inflight st) = Some s /\
    cache (step st e).1
      = {| cachedProducts := extract d; lastScrapeTime := Some (stampOf s clock) |}.
Proof.
  destruct e as [r now | r | r run clock]; simpl.
  - left. by destruct (cacheValid (cache st) now).
  - by left.
  - destruct (suspendedOf r (inflight st)) as [s|] eqn:Hs; [|by left].
    destruct run as [message | d]; [by left|].
    right. exists r, d, clock, s. by destruct s.
Qed.

(** X12: in every run of the server from its start, a success reply has
    status 200, a [count] equal to the number of its products, and products
    that are the complete result of one extraction: pairwise distinct
    addresses, ids 1 to [count], well-formed records; a failure reply has
    status 500. *)
Theorem replies_are_complete (es : list Event) (r : nat) (resp : Response) :
  Reply r resp ∈ (run_events initial es).2 -> replyComplete resp.
Proof. apply run_complete. by exists (linksOnly []). Qed.

Lemma replies_are_complete_witness :
  replyComplete (ok (Success 1 (Some false) (extract kettlePage))).
Proof.
  apply (replies_are_complete
           [GetProducts 1 1700000000000;
            ScrapeSettled 1 (Loaded kettlePage) 1700000014000] 1%nat).
  apply list_elem_of_In. right. left. reflexivity.
Defined.

(** X13: in every run from the start, each scrape that was launched is
    either still in flight or has been answered by exactly one reply of a
    resumed handler: launches = in flight + such replies. *)
Theorem launches_accounted (es : list Event) :
  countIf isLaunch (run_events initial es).2
  = (length (inflight (run_events initial es).1)
     + countIf isSettledReply (run_events initial es).2)%nat.
Proof.
  assert (H : forall st,
    (countIf isLaunch (run_events st es).2 + length (inflight st)
     = length (inflight (run_events st es).1)
       + countIf isSettledReply (run_events st es).2)%nat).
  { induction es as [|e es IH]; intros st; [simpl; unfold countIf; simpl; lia|].
    cbn [run_events]. pose proof (step_accounted st e) as Hstep.
    destruct (step st e) as [st1 out1]. specialize (IH st1).
    destruct (run_events st1 es) as [st2 out2]. simpl in *.
    rewrite !countIf_app. lia. }
  specialize (H initial). simpl in H. lia.
Qed.

(** X14: what a scrape stored is what the cache serves: after the success
    of a scrape with at least one record and a stamp that is not zero,
    and after any further arrivals and failed scrapes, a request made less
    than 300000 ms after the stamp is answered from the cache with exactly
    the stored records. *)
Theorem stored_records_are_served (st : Server) (r r' : nat) (s : Suspended)
    (d : Document) (clock now : Z) (es : list Event) :
  suspendedOf r (inflight st) = Some s ->
  extract d <> [] -> stampOf s clock <> 0 ->
  forallb harmless es = true ->
  now - stampOf s clock < 300000 ->
  let stored := (step st (ScrapeSettled r (Loaded d) clock)).1 in
  (step (run_events stored es).1 (GetProducts r' now)).2
  = [Reply r' (ok (Success (length (extract d)) (Some true) (extract d)))].
Proof.
  intros Hs Hne Hstamp Hes Hage stored. cbn [step].
  rewrite (harmless_keeps_cache es stored Hes).
  assert (Hcache : cache stored
    = {| cachedProducts := extract d; lastScrapeTime := Some (stampOf s clock) |}).
  { subst stored. rewrite (step_settled _ _ _ _ _ Hs). by destruct s. }
  rewrite Hcache.
  assert (Hvalid : cacheValid {| cachedProducts := extract d;
                                 lastScrapeTime := Some (stampOf s clock) |} now = true).
  { apply cacheValid_hit. split; [done|]. by exists (stampOf s clock). }
  by rewrite Hvalid.
Qed.

Lemma stored_records_are_served_witness :
  let T := 1700000000000 in
  let st := (step initial (GetRefresh 1)).1 in
  let stored := (step st (ScrapeSettled 1 (Loaded kettlePage) (T + 14000))).1 in
  (step (run_events stored [GetRefresh 2; ScrapeSettled 2 (Threw (js "timeout")) (T + 90000)]).1
        (GetProducts 3 (T + 300000))).2
  = [Reply 3 (ok (Success (length (extract kettlePage)) (Some true) (extract kettlePage)))].
Proof.
  intros T st.
  apply (stored_records_are_served st 1 3 AwaitRefresh kettlePage (T + 14000)
           (T + 300000)
           [GetRefresh 2; ScrapeSettled 2 (Threw (js "timeout")) (T + 90000)]);
    (reflexivity || discriminate).
Defined.

(** X15: an entry that is not served at some time is not served at any
    later time either, until a scrape succeeds: after any arrivals and
    failed scrapes, a later request launches a scrape. *)
Theorem expired_stays_expired (st : Server) (r : nat) (now later : Z)
    (es : list Event) :
  cacheValid (cache st) now = false -> now <= later ->
  forallb harmless es = true ->
  (step (run_events st es).1 (GetProducts r later)).2 = [LaunchScrape r].
Proof.
  intros Hmiss Hle Hes. cbn [step]. rewrite (harmless_keeps_cache es st Hes).
  assert (Hlater : cacheValid (cache st) later = false).
  { apply cacheValid_miss. apply cacheValid_miss in Hmiss.
    intros [Hne (t & Ht & Hnz & Hlt)]. apply Hmiss.
    split; [done|]. exists t. repeat split; [done | done | lia]. }
  by rewrite Hlater.
Qed.

Lemma expired_stays_expired_witness :
  let T := 1700000000000 in
  let st := (run_events initial
               [GetProducts 1 T; ScrapeSettled 1 (Loaded kettlePage) (T + 14000)]).1 in
  (step (run_events st []).1 (GetProducts 2 (T + 400000))).2 = [LaunchScrape 2].
Proof.
  intros T st.
  apply (expired_stays_expired st 2 (T + 300000) (T + 400000) []);
    [reflexivity | lia | reflexivity].
Defined.

(** ** The browser session *)

Section Sessions.

Lemma tryBlock_cases chromePath s :
  tryBlock chromePath s
  = match launch s with Some m => (take 1 (allStages chromePath), inl m) | None =>
    match newPage s with Some m => (take 2 (allStages chromePath), inl m) | None =>
    match setUserAgent s with Some m => (take 3 (allStages chromePath), inl m) | None =>
    match goto s with Some m => (take 4 (allStages chromePath), inl m) | None =>
    match waitReady s with Some m => (take 5 (allStages chromePath), inl m) | None =>
    match scroll s with Some m => (take 6 (allStages chromePath), inl m) | None =>
    (allStages chromePath,
     match evaluated s with inl m => inl m | inr d => inr (extract d) end)
    end end end end end end.
Proof.
  unfold tryBlock, andThen, attempt. simpl.
  destruct (launch s); [done|]. simpl.
  destruct (newPage s); [done|]. simpl.
  destruct (setUserAgent s); [done|]. simpl.
  destruct (goto s); [done|]. simpl.
  destruct (waitReady s); [done|]. simpl.
  destruct (scroll s); done.
Qed.

Lemma tryBlock_result chromePath s :
  (tryBlock chromePath s).2 = scrapeProducts (summary s).
Proof.
  rewrite tryBlock_cases. unfold summary, firstFailure.
  destruct (launch s); [done|]. destruct (newPage s); [done|].
  destruct (setUserAgent s); [done|]. destruct (goto s); [done|].
  destruct (waitReady s); [done|]. destruct (scroll s); [done|].
  by destruct (evaluated s).
Qed.

End Sessions.


(** X17: the outcome of [scrapeProducts] is the error of the first stage
    that throws, and the records extracted from the page when none does;
    but when the browser was launched and [browser.close()] throws, that
    error replaces the outcome, records included. *)
Theorem scrape_outcome (chromePath : option jsstring) (s : Session) :
  (scrapeSession chromePath s).2
  = match launch s, close s with
    | None, Some message => inl message
    | _, _ => scrapeProducts (summary s)
    end.
Proof.
  unfold scrapeSession. rewrite tryBlock_result.
  destruct (launch s) eqn:Hlaunch.
  - by destruct (scrapeProducts (summary s)).
  - destruct (close s); [done|]. by destruct (scrapeProducts (summary s)).
Qed.

(** X18: a scrape that returns records has seen, at one poll of the
    readiness wait, a page with at least three product links, and its
    records are the extraction of the page that the extraction script ran
    on; with fewer than three links at every poll it fails. *)
Theorem success_needs_ready_page (chromePath : option jsstring) (s : Session)
    (products : list Product) :
  (scrapeSession chromePath s).2 = inr products ->
  (exists d, d ∈ polls s /\ (3 <= length (sel_product_link d))%nat) /\
  (exists page, evaluated s = inr page /\ products = extract page) /\
  close s = None.
Proof.
  unfold scrapeSession. rewrite tryBlock_result.
  unfold summary, firstFailure, waitReady.
  destruct (launch s); [done|]. destruct (close s); [done|].
  destruct (newPage s); [done|]. destruct (setUserAgent s); [done|].
  destruct (goto s); [done|]. destruct (waitCrash s); [done|].
  destruct (existsb ready (polls s)) eqn:Hready; [|done].
  destruct (scroll s); [done|]. destruct (evaluated s) as [m|page]; [done|].
  simpl. intros [= <-]. split; [|split; [by exists page | done]].
  apply existsb_exists in Hready as (d & Hin & Hd).
  exists d. split; [by apply list_elem_of_In|].
  unfold ready in Hd. by apply Nat.leb_le in Hd.
Qed.

Lemma success_needs_ready_page_witness :
  (exists d, d ∈ polls (smoothSession threePictures)
             /\ (3 <= length (sel_product_link d))%nat) /\
  (exists page, evaluated (smoothSession threePictures) = inr page
                /\ [] = extract page) /\
  close (smoothSession threePictures) = None.
Proof.
  apply (success_needs_ready_page None (smoothSession threePictures) []).
  reflexivity.
Defined.

(** X19: [getChromePath] returns the first of its three candidates, in the
    order of the array, that exists, and [undefined] when none exists; no
    candidate is filtered out, and without [LOCALAPPDATA] the third one
    is the relative path that starts with ["undefined"]. *)
Theorem getChromePath_first_existing (existsSync : jsstring -> bool)
    (LOCALAPPDATA : option jsstring) :
  let candidates := chromePaths LOCALAPPDATA in
  candidates
  = [ js "C:\Program Files\Google\Chrome\Application\chrome.exe";
      js "C:\Program Files (x86)\Google\Chrome\Application\chrome.exe";
      match LOCALAPPDATA with Some v => v | None => js "undefined" end
        ++ js "\Google\Chrome\Application\chrome.exe" ] /\
  match getChromePath existsSync LOCALAPPDATA with
  | Some p =>
      exists before after,
        candidates = before ++ p :: after /\
        existsSync p = true /\
        Forall (fun q => existsSync q = false) before
  | None => Forall (fun q => existsSync q = false) candidates
  end.
Proof.
  intros candidates. split.
  - subst candidates. unfold chromePaths, localAppData. cbn [List.filter].
    by destruct LOCALAPPDATA as [[|c v]|].
  - unfold getChromePath. fold candidates. clearbody candidates.
    induction candidates as [|q rest IH]; [constructor|]. simpl.
    destruct (existsSync q) eqn:Hq.
    + exists [], rest. by repeat split.
    + destruct (find existsSync rest) as [p|].
      * destruct IH as (before & after & -> & Hp & Hbefore).
        exists (q :: before), after. repeat split; [done|]. by constructor.
      * by constructor.
Qed.

(** ** The image relay, the script and the dashboard *)




Section Script.

Lemma script_lockstep cards : forall results sresults seen,
  (fun p => (title p, price p, url p)) <$> results
    = (fun r => (s_title r, s_price r, s_url r)) <$> sresults ->
  image <$> results
    = (fun r => if startsWith (js "//") (s_image r)
                then js "https:" ++ s_image r else s_image r) <$> sresults ->
  (fun p => (title p, price p, url p)) <$> extract_loop cards results seen
    = (fun r => (s_title r, s_price r, s_url r)) <$> scriptLoop cards sresults seen /\
  image <$> extract_loop cards results seen
    = (fun r => if startsWith (js "//") (s_image r)
                then js "https:" ++ s_image r else s_image r)
      <$> scriptLoop cards sresults seen.
Proof.
  induction cards as [|c cards IH]; intros results sresults seen Hfields Himages; [done|].
  cbn [extract_loop scriptLoop]. unfold visit, scriptVisit, emits.
  destruct (linkEl c) as [a|]; [|by apply IH].
  destruct (negb _ || _); [by apply IH|].
  destruct (truthy _ || truthy_str _); apply IH; try done.
  - rewrite !fmap_app, Hfields. done.
  - rewrite !fmap_app, Himages. f_equal.
    cbn [fmap list_fmap recordOf scriptRecordOf image s_image].
    by rewrite !or_str_self.
Qed.

End Script.

(** X22: on the same page the stand-alone script and the server extract the
    same records, in the same order, with the same titles, prices and
    addresses; the server's images are the script's with ["https:"] put in
    front of those that start with ["//"]. *)
Theorem script_and_server_agree (d : Document) :
  (fun p => (title p, price p, url p)) <$> extract d
    = (fun r => (s_title r, s_price r, s_url r)) <$> scriptExtract d /\
  image <$> extract d
    = (fun r => if startsWith (js "//") (s_image r)
                then js "https:" ++ s_image r else s_image r) <$> scriptExtract d /\
  length (extract d) = length (scriptExtract d).
Proof.
  destruct (script_lockstep (discover d) [] [] ∅ eq_refl eq_refl) as [Hfields Himages].
  split; [done|]. split; [done|].
  apply (f_equal length) in Himages. by rewrite !length_fmap in Himages.
Qed.

Section Dashboard.

Local Open Scope N_scope.

Lemma includes_start needle s : startsWith needle s = true -> includes needle s = true.
Proof. intros H. destruct s; simpl; by rewrite H. Qed.

Lemma amount_kept a :
  forallb is_amount_char a = true -> List.filter keptByFormat a = a.
Proof.
  induction a as [|c a IH]; [done|]. intros [Hc Ha]%andb_true_iff. simpl.
  replace (keptByFormat c) with true; [by rewrite IH|].
  symmetry. unfold keptByFormat, is_amount_char in *.
  repeat rewrite ?orb_true_iff, ?andb_true_iff, ?N.eqb_eq, ?N.leb_le in *. lia.
Qed.

Lemma filter_kept s : forallb keptByFormat (List.filter keptByFormat s) = true.
Proof.
  apply forallb_forall. by intros c [_ Hc]%filter_In.
Qed.

End Dashboard.

Local Open Scope N_scope.

(** X23: whatever the price text, what [formatPrice] displays contains
    ["AED"] and consists only of digits, points, commas, the letters [A],
    [E], [D] and white space. *)
Theorem formatPrice_shape (price : jsstring) :
  includes (js "AED") (formatPrice price) = true /\
  forallb keptByFormat (formatPrice price) = true.
Proof.
  unfold formatPrice.
  set (cleaned := trim (List.filter keptByFormat price)).
  assert (Hkept : forallb keptByFormat cleaned = true).
  { pose proof (filter_kept price) as H.
    destruct (trim_parts (List.filter keptByFormat price))
      as (before & after & Heq & _ & _).
    fold cleaned in Heq. rewrite Heq, !forallb_app in H.
    by apply andb_true_iff in H as [_ [H _]%andb_true_iff]. }
  destruct (includes (js "AED") cleaned) eqn:Hin; [done|].
  split; [by apply includes_start|]. by rewrite forallb_app, Hkept.
Qed.

(** X24: [formatPrice] displays a price that the server normalised, ["AED "]
    and a numeric amount, as it is; and it displays the sentinel of a record
    without a price as ["AED A"]. *)
Theorem formatPrice_of_server_prices (a : jsstring) (n : nat) (u : jsstring)
    (c : Card) :
  (is_amount a = true -> formatPrice (js "AED " ++ a) = js "AED " ++ a) /\
  (priceMatch (container c) = false ->
   formatPrice (price (recordOf n u c)) = js "AED A").
Proof.
  split.
  - intros [Hne Ha]%andb_true_iff. unfold formatPrice.
    assert (Hfilter : List.filter keptByFormat (js "AED " ++ a) = js "AED " ++ a).
    { rewrite List.filter_app, (amount_kept a Ha). reflexivity. }
    rewrite Hfilter, visibleEnds_trim; [reflexivity|].
    split; [by intros x [= <-]|].
    intros x Hx. destruct (amount_last a) as (a0 & z & -> & Hz);
      [by apply andb_true_iff|].
    rewrite app_assoc, last_snoc in Hx. by injection Hx as <-.
  - intros Hp. unfold recordOf. cbn [price].
    rewrite <- price_truthy in Hp.
    destruct (priceOf (container c)); [reflexivity | done].
Qed.

Lemma formatPrice_of_server_prices_witness :
  formatPrice (js "AED 1,299") = js "AED 1,299" /\
  formatPrice (price (recordOf 0 (js "https://x/product/1") titleLink)) = js "AED A".
Proof.
  split.
  - apply (proj1 (formatPrice_of_server_prices (js "1,299") 0 [] titleLink)).
    reflexivity.
  - apply (proj2 (formatPrice_of_server_prices [] 0 (js "https://x/product/1") titleLink)).
    reflexivity.
Defined.

Local Open Scope Z_scope.

(** X25: when [fetchProducts] is over, the page is neither loading nor
    refreshing, whatever happened.  After a success reply the error is
    cleared and the products are those of the reply; after a failure reply
    or a network error the products shown before are kept and an error
    message that is not empty is set. *)
Theorem fetchProducts_settles (forceRefresh : bool) (outcome : Fetch)
    (clock : Z) (h : Home) :
  let h' := fetchProducts forceRefresh outcome clock h in
  h_loading h' = false /\ h_refreshing h' = false /\
  match outcome with
  | FetchJson (Success _ _ products) =>
      h_error h' = None /\ h_products h' = products /\ h_lastUpdated h' = Some clock
  | _ =>
      truthy (h_error h') = true /\ h_products h' = h_products h /\
      h_lastUpdated h' = h_lastUpdated h /\ h_isCached h' = h_isCached h
  end.
Proof.
  destruct outcome as [|[count cached products | error]]; simpl; repeat split.
  by destruct error.
Qed.

(** X26: the page shows its [Cached] mark exactly for a reply that the
    server took from its cache: for every reply of a step of the server,
    [isCached] becomes true if and only if the request was a
    [GET /api/products] that found the cache valid, in which case the
    products shown are the cached ones and no scrape was launched. *)
Theorem cached_mark_is_truthful (st : Server) (e : Event) (r : nat)
    (resp : Response) (forceRefresh : bool) (clock : Z) (h : Home) :
  Reply r resp ∈ (step st e).2 ->
  let h' := fetchProducts forceRefresh (FetchJson (body resp)) clock h in
  (h_error h' = None /\ h_isCached h' = true
   <-> exists now, e = GetProducts r now /\ cacheValid (cache st) now = true) /\
  (h_error h' = None -> h_isCached h' = true ->
   h_products h' = cachedProducts (cache st) /\
   forall r', LaunchScrape r' ∉ (step st e).2).
Proof.
  intros Hin h'. subst h'.
  destruct e as [r0 now | r0 | r0 run clock0]; simpl in Hin.
  - destruct (cacheValid (cache st) now) eqn:Hvalid.
    + apply list_elem_of_singleton in Hin. injection Hin as -> ->. simpl.
      rewrite Hvalid. split; [split; [by exists now | done]|].
      intros _ _. split; [done|]. by intros r' [=]%list_elem_of_singleton.
    + by apply list_elem_of_singleton in Hin.
  - by apply list_elem_of_singleton in Hin.
  - destruct (suspendedOf r0 (inflight st)) as [s|]; [|by apply elem_of_nil in Hin].
    unfold settle in Hin.
    destruct (scrapeProducts run) as [message | products], s; simpl in Hin;
      apply list_elem_of_singleton in Hin; injection Hin as -> ->; simpl;
      (split; [split; [by intros [? ?] | by intros (? & [=] & _)] | done]).
Qed.

Lemma cached_mark_is_truthful_witness :
  let T := 1700000000000 in
  let st := (run_events initial
               [GetProducts 1 T; ScrapeSettled 1 (Loaded kettlePage) (T + 14000)]).1 in
  let h := {| h_products := []; h_loading := true; h_refreshing := false;
              h_error := None; h_lastUpdated := None; h_isCached := false |} in
  let resp := ok (Success 1 (Some true) (extract kettlePage)) in
  let h' := fetchProducts false (FetchJson (body resp)) (T + 60000) h in
  (h_error h' = None /\ h_isCached h' = true
   <-> exists now, GetProducts 2 (T + 60000) = GetProducts 2 now
                   /\ cacheValid (cache st) now = true) /\
  (h_error h' = None -> h_isCached h' = true ->
   h_products h' = cachedProducts (cache st) /\
   forall r', LaunchScrape r' ∉ (step st (GetProducts 2 (T + 60000))).2).
Proof.
  intros T st h resp.
  apply (cached_mark_is_truthful st (GetProducts 2 (T + 60000)) 2 resp false
           (T + 60000) h).
  apply list_elem_of_singleton. reflexivity.
Defined.

(** X27: [formatTimeAgo] rounds the elapsed time down to whole units: below
    one minute (a date in the future included) it says ["Just now"]; below
    one hour, the whole minutes, 1 to 59; below one day, the whole hours, 1
    to 23; from then on the whole days. *)
Theorem formatTimeAgo_units (now t : Z) :
  let elapsed := now - t in
  (elapsed < 60000 -> formatTimeAgo now t = js "Just now") /\
  (60000 <= elapsed < 3600000 ->
   formatTimeAgo now t = decimal (elapsed / 60000) ++ js "m ago"
   /\ 1 <= elapsed / 60000 <= 59) /\
  (3600000 <= elapsed < 86400000 ->
   formatTimeAgo now t = decimal (elapsed / 3600000) ++ js "h ago"
   /\ 1 <= elapsed / 3600000 <= 23) /\
  (86400000 <= elapsed ->
   formatTimeAgo now t = decimal (elapsed / 86400000) ++ js "d ago"
   /\ 1 <= elapsed / 86400000).
Proof.
  intros elapsed. unfold formatTimeAgo. fold elapsed.
  assert (Hh : elapsed / 60000 / 60 = elapsed / 3600000)
    by (rewrite Z.div_div by lia; reflexivity).
  assert (Hd : elapsed / 60000 / 60 / 24 = elapsed / 86400000)
    by (rewrite !Z.div_div by lia; reflexivity).
  rewrite Hd, Hh.
  pose proof (Z.div_le_mono 60000 elapsed 60000 ltac:(lia)) as Hm1.
  pose proof (Z.div_lt_upper_bound elapsed 60000 1 ltac:(lia)) as Hm0.
  pose proof (Z.div_lt_upper_bound elapsed 60000 60 ltac:(lia)) as Hm59.
  pose proof (Z.div_le_lower_bound elapsed 60000 60 ltac:(lia)) as Hm60.
  pose proof (Z.div_le_lower_bound elapsed 3600000 1 ltac:(lia)) as Hh1.
  pose proof (Z.div_lt_upper_bound elapsed 3600000 24 ltac:(lia)) as Hh23.
  pose proof (Z.div_le_lower_bound elapsed 3600000 24 ltac:(lia)) as Hh24.
  pose proof (Z.div_le_lower_bound elapsed 86400000 1 ltac:(lia)) as Hd1.
  pose proof (Z.div_le_lower_bound elapsed 60000 1 ltac:(lia)) as Hmin1.
  repeat split.
  - intros Hlt. destruct (Z.ltb_spec (elapsed / 60000) 1); [done | lia].
  - destruct (Z.ltb_spec (elapsed / 60000) 1); [lia|].
    destruct (Z.ltb_spec (elapsed / 60000) 60); [done | lia].
  - lia.
  - lia.
  - destruct (Z.ltb_spec (elapsed / 60000) 1); [lia|].
    destruct (Z.ltb_spec (elapsed / 60000) 60); [lia|].
    destruct (Z.ltb_spec (elapsed / 3600000) 24); [done | lia].
  - lia.
  - lia.
  - destruct (Z.ltb_spec (elapsed / 60000) 1); [lia|].
    destruct (Z.ltb_spec (elapsed / 60000) 60); [lia|].
    destruct (Z.ltb_spec (elapsed / 3600000) 24); [lia | done].
  - lia.
Qed.

Lemma formatTimeAgo_units_witness :
  formatTimeAgo 1700000000000 1699999000000 = js "16m ago" /\
  formatTimeAgo 1700000000000 1699990000000 = js "2h ago" /\
  formatTimeAgo 1700000000000 1699000000000 = js "11d ago" /\
  formatTimeAgo 1700000000000 1700000050000 = js "Just now".
Proof.
  split; [|split; [|split]].
  - apply (proj1 (proj1 (proj2 (formatTimeAgo_units 1700000000000 1699999000000))
                   ltac:(simpl; lia))).
  - apply (proj1 (proj1 (proj2 (proj2 (formatTimeAgo_units 1700000000000 1699990000000)))
                   ltac:(simpl; lia))).
  - apply (proj1 (proj2 (proj2 (proj2 (formatTimeAgo_units 1700000000000 1699000000000)))
                   ltac:(simpl; lia))).
  - apply (proj1 (formatTimeAgo_units 1700000000000 1700000050000)). simpl. lia.
Defined.

(** X28: a scrape that succeeds without any record is answered by the
    server with a success reply of status 200; the dashboard page then shows
    an empty list and no error, while the demo dashboard reports the error
    ["No products returned from scraper."]. *)
Theorem empty_scrape_on_the_dashboards (st : Server) (r : nat) (s : Suspended)
    (d : Document) (clock clock' : Z) (forceRefresh : bool) (h : Home) :
  suspendedOf r (inflight st) = Some s ->
  extract d = [] ->
  exists resp,
    (step st (ScrapeSettled r (Loaded d) clock)).2 = [Reply r resp] /\
    status resp = 200 /\
    (let h' := fetchProducts forceRefresh (FetchJson (body resp)) clock' h in
     h_error h' = None /\ h_products h' = []) /\
    demoVerdict (FetchJson (body resp))
      = Some (js "No products returned from scraper.").
Proof.
  intros Hs Hempty. rewrite (step_settled _ _ _ _ _ Hs).
  unfold settle. simpl. rewrite Hempty.
  destruct s; eexists; (split; [reflexivity|]); by repeat split.
Qed.

Lemma empty_scrape_on_the_dashboards_witness :
  let st := (step initial (GetProducts 1 1700000000000)).1 in
  let h := {| h_products := []; h_loading := true; h_refreshing := false;
              h_error := None; h_lastUpdated := None; h_isCached := false |} in
  exists resp,
    (step st (ScrapeSettled 1 (Loaded threePictures) 1700000014000)).2 = [Reply 1 resp] /\
    status resp = 200 /\
    (let h' := fetchProducts false (FetchJson (body resp)) 1700000014100 h in
     h_error h' = None /\ h_products h' = []) /\
    demoVerdict (FetchJson (body resp))
      = Some (js "No products returned from scraper.").
Proof.
  intros st h.
  apply (empty_scrape_on_the_dashboards st 1 (AwaitProducts 1700000000000)
           threePictures 1700000014000 1700000014100 false h); reflexivity.
Defined.
